(** * econet-mqtt-publisher: a shallow embedding of [mqtt_publisher.py]

    The publisher polls a heat-pump controller for a JSON document, walks a
    fixed table of paths through it and republishes the values on MQTT.
    The definitions below follow the methods of [EconetMQTTPublisher] one by
    one; Python values are a tagged type, exceptions are an explicit result
    type, and the logger, the broker and the clock are fields of a state that
    is threaded through the methods. *)

From Stdlib Require Import ZArith List String Ascii Bool Lia.
From Stdlib Require Import DecimalString.
From Stdlib Require Import SpecFloat.
Import ListNotations.

Set Warnings "-register-all".

Local Open Scope string_scope.
Local Open Scope Z_scope.

(** ** Python values

    [json.loads] yields [None], [bool], [int], [float], [str], [list] and
    [dict] with [str] keys.  A [dict] keeps insertion order, so it is an
    association list; a [float] is its binary value. *)

Inductive json : Type :=
| JNull
| JBool (b : bool)
| JInt (z : Z)
| JFloat (f : spec_float)
| JStr (s : string)
| JArr (items : list json)
| JObj (members : list (string * json)).

(** A path element of [topic_mappings]: a [str] key or an [int] index. *)
Inductive seg : Type :=
| SKey (k : string)
| SIdx (i : Z).

Definition path := list seg.

(** ** Exceptions *)

Inductive exn : Type :=
| KeyError
| IndexError
| TypeError
| ValueError
| SystemExit
| OtherError.

Inductive result (A : Type) : Type :=
| Ok (a : A)
| Raise (e : exn).

Arguments Ok {A} a.
Arguments Raise {A} e.

Definition rbind {A B} (r : result A) (k : A -> result B) : result B :=
  match r with
  | Ok a => k a
  | Raise e => Raise e
  end.

Declare Scope result_scope.
Delimit Scope result_scope with result.
Notation "x <- c ;; k" := (rbind c (fun x => k))
  (at level 61, c at next level, right associativity) : result_scope.

(** ** Library code the development is parametric in

    [repr] of a [float] and of a [str], [json.dumps], and [int] on a [str]
    that is not plain ASCII text of at most 4300 characters: there the result
    depends on the digits and the white space of Unicode and on the
    interpreter's limit on the number of digits. *)
Class PyText : Type := {
  float_repr : spec_float -> string;
  str_repr : string -> string;
  json_dumps : json -> string;
  int_wide : string -> option Z
}.

(** ** Built-in operations on values *)

Module Py.

(** [d[key]] on a dict whose keys are all [str]. *)
Fixpoint dict_get (key : string) (d : list (string * json)) : option json :=
  match d with
  | [] => None
  | (k, v) :: rest => if String.eqb k key then Some v else dict_get key rest
  end.

(** [d[key] = v]: overwrite in place, else append. *)
Fixpoint dict_set (key : string) (v : json) (d : list (string * json))
  : list (string * json) :=
  match d with
  | [] => [(key, v)]
  | (k, w) :: rest =>
      if String.eqb k key then (k, v) :: rest else (k, w) :: dict_set key v rest
  end.

Definition dict_has (key : string) (d : list (string * json)) : bool :=
  match dict_get key d with Some _ => true | None => false end.

(** [d[key]] for a path element.  An [int] never equals a [str], so an
    integer key is never found. *)
Definition dict_getitem (d : list (string * json)) (key : seg) : result json :=
  match key with
  | SKey k => match dict_get k d with
              | Some v => Ok v
              | None => Raise KeyError
              end
  | SIdx _ => Raise KeyError
  end.

(** [l[i]]: a negative index counts from the end. *)
Definition list_getitem (l : list json) (i : Z) : result json :=
  let n := Z.of_nat (List.length l) in
  let j := if i <? 0 then i + n else i in
  if (0 <=? j) && (j <? n)
  then match nth_error l (Z.to_nat j) with
       | Some v => Ok v
       | None => Raise IndexError
       end
  else Raise IndexError.

(** *** [int(s)] on a [str]

    On ASCII text: surrounding white space (tab, the line breaks and the
    blank) is dropped, one sign is allowed, and the rest is a run of decimal
    digits in which single underscores may separate digits. *)

Definition is_space (c : ascii) : bool :=
  let n := nat_of_ascii c in
  ((9 <=? n) && (n <=? 13) || (n =? 32))%nat.

Definition digit_of (c : ascii) : option Z :=
  let n := nat_of_ascii c in
  if ((48 <=? n) && (n <=? 57))%nat then Some (Z.of_nat n - 48) else None.

Fixpoint lstrip (s : string) : string :=
  match s with
  | String c rest => if is_space c then lstrip rest else s
  | EmptyString => EmptyString
  end.

Fixpoint all_space (s : string) : bool :=
  match s with
  | String c rest => is_space c && all_space rest
  | EmptyString => true
  end.

(** Digits after the first one; [acc] is the value read so far and
    [after_digit] tells whether the previous character was a digit. *)
Fixpoint digits_from (s : string) (acc : Z) (after_digit : bool) : option Z :=
  match s with
  | EmptyString => if after_digit then Some acc else None
  | String c rest =>
      match digit_of c with
      | Some d => digits_from rest (10 * acc + d) true
      | None =>
          if Ascii.eqb c "_"
          then if after_digit then digits_from rest acc false else None
          else if after_digit && all_space s then Some acc else None
      end
  end.

Definition magnitude (s : string) : option Z :=
  match s with
  | String c rest =>
      match digit_of c with
      | Some d => digits_from rest d true
      | None => None
      end
  | EmptyString => None
  end.

Definition int_of_ascii (s : string) : option Z :=
  match lstrip s with
  | String "-" rest => option_map Z.opp (magnitude rest)
  | String "+" rest => magnitude rest
  | t => magnitude t
  end.

Fixpoint is_ascii (s : string) : bool :=
  match s with
  | EmptyString => true
  | String c rest => (nat_of_ascii c <? 128)%nat && is_ascii rest
  end.

Section WithText.

Context {T : PyText}.

(** [int(s)]: the ASCII reading where it is the whole story, the library's
    otherwise. *)
Definition int_of_str (s : string) : option Z :=
  if is_ascii s && (String.length s <=? 4300)%nat
  then int_of_ascii s
  else int_wide s.

(** [int(key)] for a path element. *)
Definition int (key : seg) : result Z :=
  match key with
  | SIdx i => Ok i
  | SKey s => match int_of_str s with
              | Some i => Ok i
              | None => Raise ValueError
              end
  end.

End WithText.

End Py.

(** ** [_get_nested_value] *)

Section Resolver.

Context {T : PyText}.

(** The [for key in path] loop.  [Ok None] is the [return None] of its
    [else] branch; [Ok (Some current)] is the loop running to its end. *)
Fixpoint walk (current : json) (p : path) : result (option json) :=
  match p with
  | [] => Ok (Some current)
  | key :: rest =>
      match current with
      | JObj d => (v <- Py.dict_getitem d key ;; walk v rest)%result
      | JArr l => (i <- Py.int key ;;
                   v <- Py.list_getitem l i ;;
                   walk v rest)%result
      | _ => Ok None
      end
  end.

(** The body of the [try]. *)
Definition get_nested_body (data : json) (p : path) : result json :=
  (r <- walk data p ;;
   match r with
   | None => Ok JNull
   | Some (JArr (first :: _)) => Ok first
   | Some current => Ok current
   end)%result.

(** [except (KeyError, IndexError, TypeError, ValueError): return None]. *)
Definition _get_nested_value (data : json) (p : path) : result json :=
  match get_nested_body data p with
  | Ok v => Ok v
  | Raise KeyError | Raise IndexError | Raise TypeError | Raise ValueError =>
      Ok JNull
  | Raise e => Raise e
  end.

End Resolver.

(** ** [str], [==] and truth of a value *)

(** A rendering to evaluate closed examples with.  [repr] of a [str] is exact
    when the string has no quote, backslash or control character; of the
    floats only the zeros and the special values are rendered, and
    [json.dumps] and [int_wide] are placeholders: no example below depends
    on any of these. *)
Definition plain_text : PyText := {|
  float_repr := fun f =>
    match f with
    | S754_zero false => "0.0"
    | S754_zero true => "-0.0"
    | S754_infinity false => "inf"
    | S754_infinity true => "-inf"
    | S754_nan => "nan"
    | S754_finite _ _ _ => "<float>"
    end;
  str_repr := fun s => "'" ++ s ++ "'";
  json_dumps := fun _ => "<json>";
  int_wide := fun _ => None
|}.

Definition str_of_int (z : Z) : string := NilZero.string_of_int (Z.to_int z).

Fixpoint join (sep : string) (parts : list string) : string :=
  match parts with
  | [] => ""
  | [x] => x
  | x :: rest => x ++ sep ++ join sep rest
  end.

(** [f == n] for a float [f] and an integer [n]: the comparison is exact. *)
Definition float_eq_int (f : spec_float) (n : Z) : bool :=
  match f with
  | S754_zero _ => n =? 0
  | S754_infinity _ | S754_nan => false
  | S754_finite s m e =>
      let sm := if s then Z.neg m else Z.pos m in
      if 0 <=? e then sm * 2 ^ e =? n else sm =? n * 2 ^ (- e)
  end.

(** [value == n] for an integer literal [n]; [True == 1] and [False == 0]. *)
Definition py_eq_int (value : json) (n : Z) : bool :=
  match value with
  | JInt z => z =? n
  | JBool b => (if b then 1 else 0) =? n
  | JFloat f => float_eq_int f n
  | _ => false
  end.

(** Truth of a value, as in [if data:]. *)
Definition truthy (value : json) : bool :=
  match value with
  | JNull => false
  | JBool b => b
  | JInt z => negb (z =? 0)
  | JFloat f => match f with S754_zero _ => false | _ => true end
  | JStr s => negb (String.eqb s "")
  | JArr l => match l with [] => false | _ => true end
  | JObj d => match d with [] => false | _ => true end
  end.

Section Text.

Context {T : PyText}.

Fixpoint py_repr (v : json) : string :=
  match v with
  | JNull => "None"
  | JBool true => "True"
  | JBool false => "False"
  | JInt z => str_of_int z
  | JFloat f => float_repr f
  | JStr s => str_repr s
  | JArr l => "[" ++ join ", " (map py_repr l) ++ "]"
  | JObj d =>
      "{" ++ join ", " (map (fun kv => str_repr (fst kv) ++ ": " ++ py_repr (snd kv)) d)
          ++ "}"
  end.

(** [str(value)]: a [str] is itself, anything else is its [repr]. *)
Definition py_str (v : json) : string :=
  match v with
  | JStr s => s
  | _ => py_repr v
  end.

(** ** [_convert_valve_state] *)

Definition _convert_valve_state (value : json) : string :=
  if py_eq_int value 0 then "CH"
  else if py_eq_int value 3 then "DHW"
  else py_str value.

End Text.

(** ** Settings and the two tables of [__init__]

    The settings are the attributes [__init__] leaves behind:
    [mqtt_topic_prefix] is the prefix once a missing final slash has been
    added. *)

Record settings : Type := {
  mqtt_topic_prefix : string;
  polling_interval : Z;
  ha_discovery : bool;
  ha_discovery_name : string
}.

Definition availability_topic (self : settings) : string :=
  mqtt_topic_prefix self ++ "availability".

Definition topic_mappings : list (string * path) := [
  ("ashp_ambient_air_temp", [SKey "curr"; SKey "AxenOutdoorTemp"]);
  ("ashp_circuit1_calculated_set_temp", [SKey "tilesParams"; SIdx 29; SIdx 0; SIdx 0]);
  ("ashp_compressor_freq", [SKey "curr"; SKey "AxenCompressorFreq"]);
  ("ashp_fan_speed", [SKey "tilesParams"; SIdx 3; SIdx 0; SIdx 0]);
  ("ashp_flow_temp", [SKey "curr"; SKey "AxenOutgoingTemp"]);
  ("ashp_outlet_water_pressure", [SKey "tilesParams"; SIdx 76; SIdx 0; SIdx 0]);
  ("ashp_pump_active", [SKey "curr"; SKey "AxenUpperPump"]);
  ("ashp_return_temp", [SKey "curr"; SKey "AxenReturnTemp"]);
  ("ashp_target_temp", [SKey "curr"; SKey "HeatSourceCalcPresetTemp"]);
  ("ashp_work_state", [SKey "curr"; SKey "AxenWorkState"]);
  ("circuit1_thermostat", [SKey "curr"; SKey "Circuit1thermostat"]);
  ("dhw_temp", [SKey "curr"; SKey "TempCWU"]);
  ("outdoor_temp", [SKey "curr"; SKey "TempWthr"]);
  ("three_way_valve_state", [SKey "curr"; SKey "flapValveStates"])
].

Definition measured (name device_class unit icon : string) : list (string * json) := [
  ("name", JStr name);
  ("device_class", JStr device_class);
  ("state_class", JStr "measurement");
  ("unit_of_measurement", JStr unit);
  ("icon", JStr icon)
].

Definition running_flag (name icon : string) : list (string * json) := [
  ("name", JStr name);
  ("device_class", JStr "running");
  ("state_class", JStr "measurement");
  ("icon", JStr icon);
  ("payload_on", JStr "1");
  ("payload_off", JStr "0")
].

Definition ha_discovery_configs : list (string * list (string * json)) := [
  ("ashp_ambient_air_temp",
   measured "ASHP Ambient Air Temperature" "temperature" "°C" "mdi:thermometer");
  ("ashp_circuit1_calculated_set_temp",
   measured "ASHP Circuit 1 Calculated Set Temperature" "temperature" "°C"
            "mdi:thermometer");
  ("ashp_compressor_freq",
   measured "ASHP Compressor Frequency" "frequency" "Hz" "mdi:sine-wave");
  ("ashp_fan_speed",
   [("name", JStr "ASHP Fan Speed");
    ("state_class", JStr "measurement");
    ("unit_of_measurement", JStr "rpm");
    ("icon", JStr "mdi:fan")]);
  ("ashp_flow_temp",
   measured "ASHP Flow Temperature" "temperature" "°C" "mdi:thermometer-chevron-up");
  ("ashp_outlet_water_pressure",
   measured "ASHP Outlet Water Pressure" "pressure" "bar" "mdi:gauge");
  ("ashp_pump_active", running_flag "ASHP Pump" "mdi:pump");
  ("ashp_return_temp",
   measured "ASHP Return Temperature" "temperature" "°C" "mdi:thermometer-chevron-down");
  ("ashp_target_temp",
   measured "ASHP Target Temperature" "temperature" "°C" "mdi:thermometer");
  ("ashp_work_state", running_flag "ASHP Work State" "mdi:state-machine");
  ("circuit1_thermostat",
   measured "Circuit 1 Thermostat Temperature" "temperature" "°C" "mdi:thermostat");
  ("dhw_temp",
   measured "Cylinder Temperature" "temperature" "°C" "mdi:water-thermometer");
  ("outdoor_temp",
   measured "Outdoor Sensor Temperature" "temperature" "°C" "mdi:thermometer");
  ("three_way_valve_state",
   [("name", JStr "Three Way Valve State");
    ("device_class", JStr "enum");
    ("icon", JStr "mdi:valve");
    ("options", JArr [JStr "CH"; JStr "DHW"])])
].

(** ** The state the methods act on *)

Record message : Type := {
  topic : string;
  payload : string;
  retain : bool
}.

(** What a [publish] call comes back with: a result code
    ([MQTT_ERR_SUCCESS] is 0) or an exception. *)
Inductive pub_outcome : Type :=
| PubRc (rc : Z)
| PubRaise.

(** Calls made on [mqtt_client], oldest first. *)
Inductive client_call : Type :=
| WillSet (m : message)
| Connect
| LoopStart
| Publish (m : message) (out : pub_outcome)
| LoopStop
| Disconnect.

Inductive levelname : Type := INFO | WARNING | ERROR.

Inductive log_msg : Type :=
| ReceivedSignal
| ConnectedToBroker
| AvailabilityOnlineFailed (e : exn)
| ConnectRefused (rc : Z)
| FetchFailed
| ParseFailed
| PublishingDiscovery
| DiscoveryFailed (topic_name : string) (rc : Z)
| DiscoveryError (topic_name : string) (e : exn)
| DiscoveryPublished
| PublishFailed (topic_name : string) (rc : Z)
| PublishError (topic_name : string) (e : exn)
| CouldNotFind (topic_name : string) (json_path : path)
| PublishedValues (published_values : list (string * json))
| NoValuesPublished
| ConnectError
| AvailabilityOfflineFailed (e : exn)
| Starting
| ConnectFailedExiting
| Polling
| NoData
| UnexpectedError (e : exn)
| ShuttingDown
| ShutdownComplete.

Record state : Type := {
  running : bool;
  log : list (levelname * log_msg);
  client : list client_call;
  fetched : nat;
  slept : nat
}.

Definition M (A : Type) : Type := state -> result A * state.

Definition ret {A} (a : A) : M A := fun st => (Ok a, st).

Definition bind {A B} (m : M A) (k : A -> M B) : M B :=
  fun st =>
    match m st with
    | (Ok a, st') => k a st'
    | (Raise e, st') => (Raise e, st')
    end.

Definition raise {A} (e : exn) : M A := fun st => (Raise e, st).

Definition lift {A} (r : result A) : M A := fun st => (r, st).

(** [except Exception]: [SystemExit] is not an [Exception]. *)
Definition is_Exception (e : exn) : bool :=
  match e with SystemExit => false | _ => true end.

Definition try_except {A} (body : M A) (handler : exn -> M A) : M A :=
  fun st =>
    match body st with
    | (Ok a, st') => (Ok a, st')
    | (Raise e, st') =>
        if is_Exception e then handler e st' else (Raise e, st')
    end.

Definition try_finally {A} (body : M A) (final : M unit) : M A :=
  fun st =>
    match body st with
    | (r, st') =>
        match final st' with
        | (Ok _, st'') => (r, st'')
        | (Raise e, st'') => (Raise e, st'')
        end
    end.

Declare Scope monad_scope.
Delimit Scope monad_scope with monad.
Notation "x <- c ;; k" := (bind c (fun x => k))
  (at level 61, c at next level, right associativity) : monad_scope.
Notation "c ;; k" := (bind c (fun _ => k))
  (at level 61, right associativity) : monad_scope.

Local Open Scope monad_scope.

Definition get_running : M bool := fun st => (Ok (running st), st).

Definition with_running (b : bool) (st : state) : state :=
  {| running := b; log := log st; client := client st;
     fetched := fetched st; slept := slept st |}.

Definition set_running (b : bool) : M unit :=
  fun st => (Ok tt, with_running b st).

(** The state with [entries] appended to the log, resp. [calls] appended to
    the calls on the client. *)
Definition logged (entries : list (levelname * log_msg)) (st : state) : state :=
  {| running := running st; log := log st ++ entries; client := client st;
     fetched := fetched st; slept := slept st |}.

Definition called (calls : list client_call) (st : state) : state :=
  {| running := running st; log := log st; client := client st ++ calls;
     fetched := fetched st; slept := slept st |}.

Definition logger (lvl : levelname) (msg : log_msg) : M unit :=
  fun st => (Ok tt, logged [(lvl, msg)] st).

(** [logger.error(msg, **kwargs)]: [Logger._log] takes [exc_info], [extra],
    [stack_info] and [stacklevel]; any other keyword is a [TypeError]. *)
Definition logger_error_kw (msg : log_msg) (kwargs : list string) : M unit :=
  if forallb (fun k => existsb (String.eqb k)
                         ["exc_info"; "extra"; "stack_info"; "stacklevel"]) kwargs
  then logger ERROR msg
  else raise TypeError.

Definition client_call_ (c : client_call) : M unit :=
  fun st => (Ok tt, called [c] st).

Definition one_more_fetch (st : state) : state :=
  {| running := running st; log := log st; client := client st;
     fetched := S (fetched st); slept := slept st |}.

Definition one_more_sleep (st : state) : state :=
  {| running := running st; log := log st; client := client st;
     fetched := fetched st; slept := S (slept st) |}.

Definition count_fetch : M unit := fun st => (Ok tt, one_more_fetch st).

Definition count_sleep : M unit := fun st => (Ok tt, one_more_sleep st).

(** [_signal_handler] *)
Definition _signal_handler : M unit :=
  logger INFO ReceivedSignal ;; set_running false.

(** ** The methods of [EconetMQTTPublisher] *)

Section Publisher.

Context {T : PyText}.

(** The broker decides what each [publish] call comes back with; it is told
    how many calls the client saw before. *)
Variable broker : nat -> message -> pub_outcome.

Variable self : settings.

(** [mqtt_client.publish(topic, payload, retain=...)]; paho raises
    [ValueError] for a topic or payload it refuses. *)
Definition mqtt_publish (m : message) : M Z :=
  fun st =>
    let out := broker (List.length (client st)) m in
    let st' := called [Publish m out] st in
    match out with
    | PubRc rc => (Ok rc, st')
    | PubRaise => (Raise ValueError, st')
    end.

(** The part of [__init__] that acts on the client and the flag. *)
Definition init_state : state :=
  {| running := true;
     log := [];
     client := [WillSet {| topic := availability_topic self;
                           payload := "offline"; retain := true |}];
     fetched := 0;
     slept := 0 |}.

(** [_on_mqtt_connect] *)
Definition _on_mqtt_connect (rc : Z) : M unit :=
  if rc =? 0 then
    logger INFO ConnectedToBroker ;;
    try_except
      (_ <- mqtt_publish {| topic := availability_topic self;
                            payload := "online"; retain := true |} ;;
       ret tt)
      (fun e => logger ERROR (AvailabilityOnlineFailed e))
  else logger ERROR (ConnectRefused rc).

(** [_fetch_econet_data]: what [requests.get], [raise_for_status] and
    [response.json] come to. *)
Inductive http_result : Type :=
| HttpJson (doc : json)
| HttpRequestException
| HttpJSONDecodeError
| HttpOtherError.

Inductive fetch_exn : Type :=
| RequestException
| JSONDecodeError
| Uncaught (e : exn).

Definition http_get_json (h : http_result) : json + fetch_exn :=
  match h with
  | HttpJson doc => inl doc
  | HttpRequestException => inr RequestException
  | HttpJSONDecodeError => inr JSONDecodeError
  | HttpOtherError => inr (Uncaught OtherError)
  end.

Definition _fetch_econet_data (h : http_result) : M json :=
  count_fetch ;;
  match http_get_json h with
  | inl doc => ret doc
  | inr RequestException => logger_error_kw FetchFailed ["file"] ;; ret JNull
  | inr JSONDecodeError => logger_error_kw ParseFailed ["file"] ;; ret JNull
  | inr (Uncaught e) => raise e
  end.

(** [_publish_ha_discovery] *)

Definition is_str (v : option json) (s : string) : bool :=
  match v with
  | Some (JStr t) => String.eqb t s
  | _ => false
  end.

Definition component_of (config : list (string * json)) : string :=
  if is_str (Py.dict_get "device_class" config) "running"
     || Py.dict_has "payload_on" config
  then "binary_sensor"
  else "sensor".

Definition device_info : json :=
  JObj [("identifiers", JArr [JStr "econet_mqtt_publisher"]);
        ("name", JStr (ha_discovery_name self));
        ("model", JStr "Heat Pump Controller");
        ("manufacturer", JStr "Econet");
        ("via_device", JStr "econet_mqtt_publisher")].

(** Copy [config[key]] into the payload when [config] has it. *)
Definition copy_key (key : string) (config d : list (string * json))
  : list (string * json) :=
  match Py.dict_get key config with
  | Some v => Py.dict_set key v d
  | None => d
  end.

Definition discovery_payload (topic_name : string) (config : list (string * json))
  : result (list (string * json)) :=
  let component := component_of config in
  let unique_id := "econet_" ++ topic_name in
  let state_topic := mqtt_topic_prefix self ++ topic_name in
  (name <- Py.dict_getitem config (SKey "name") ;;
   let d := [("name", name);
             ("unique_id", JStr unique_id);
             ("state_topic", JStr state_topic);
             ("device", device_info);
             ("icon", match Py.dict_get "icon" config with
                      | Some v => v
                      | None => JStr "mdi:gauge"
                      end);
             ("availability_topic", JStr (availability_topic self));
             ("payload_available", JStr "online");
             ("payload_not_available", JStr "offline")] in
   let d := if String.eqb component "sensor"
            then Py.dict_set "expire_after" (JInt (polling_interval self * 4)) d
            else d in
   let d := copy_key "device_class" config d in
   let d := copy_key "unit_of_measurement" config d in
   let d := copy_key "state_class" config d in
   let d := if String.eqb component "binary_sensor"
            then copy_key "payload_off" config (copy_key "payload_on" config d)
            else d in
   let d := if is_str (Py.dict_get "device_class" config) "enum"
            then copy_key "options" config d
            else d in
   Ok d)%result.

Definition discovery_topic (topic_name : string) (config : list (string * json))
  : string :=
  "homeassistant/" ++ component_of config ++ "/" ++ ("econet_" ++ topic_name)
    ++ "/config".

Definition discover_one (entry : string * list (string * json)) : M unit :=
  let (topic_name, config) := entry in
  d <- lift (discovery_payload topic_name config) ;;
  try_except
    (rc <- mqtt_publish {| topic := discovery_topic topic_name config;
                           payload := json_dumps (JObj d);
                           retain := true |} ;;
     if negb (rc =? 0) then logger ERROR (DiscoveryFailed topic_name rc)
     else ret tt)
    (fun e => logger ERROR (DiscoveryError topic_name e)).

Fixpoint discover_all (table : list (string * list (string * json))) : M unit :=
  match table with
  | [] => ret tt
  | entry :: rest => discover_one entry ;; discover_all rest
  end.

Definition _publish_ha_discovery : M unit :=
  if negb (ha_discovery self) then ret tt
  else
    logger INFO PublishingDiscovery ;;
    discover_all ha_discovery_configs ;;
    logger INFO DiscoveryPublished.

(** [_publish_metrics] *)

Definition is_None (v : json) : bool :=
  match v with JNull => true | _ => false end.

(** The payload of a metric: the valve state is decoded, anything else is
    [str(value)]. *)
Definition payload_of (topic_name : string) (value : json) : string :=
  if String.eqb topic_name "three_way_valve_state"
  then _convert_valve_state value
  else py_str value.

(** One turn of the [for] loop; [published_values] is the local dict. *)
Definition publish_one (data : json) (published_values : list (string * json))
           (entry : string * path) : M (list (string * json)) :=
  let (topic_name, json_path) := entry in
  value <- lift (_get_nested_value data json_path) ;;
  if negb (is_None value) then
    let full_topic := mqtt_topic_prefix self ++ topic_name in
    try_except
      (let payload := payload_of topic_name value in
       rc <- mqtt_publish {| topic := full_topic; payload := payload;
                             retain := false |} ;;
       if rc =? 0
       then ret (Py.dict_set topic_name (JStr payload) published_values)
       else logger ERROR (PublishFailed topic_name rc) ;; ret published_values)
      (fun e => logger ERROR (PublishError topic_name e) ;; ret published_values)
  else
    logger WARNING (CouldNotFind topic_name json_path) ;; ret published_values.

Fixpoint publish_loop (data : json) (table : list (string * path))
         (published_values : list (string * json)) : M (list (string * json)) :=
  match table with
  | [] => ret published_values
  | entry :: rest =>
      published_values' <- publish_one data published_values entry ;;
      publish_loop data rest published_values'
  end.

(** The method has no [return]: its value is [None]. *)
Definition _publish_metrics (data : json) : M json :=
  published_values <- publish_loop data topic_mappings [] ;;
  (match published_values with
   | _ :: _ => logger INFO (PublishedValues published_values)
   | [] => logger WARNING NoValuesPublished
   end) ;;
  ret JNull.

(** The message a metric is published with. *)
Definition metric_message (name : string) (v : json) : message :=
  {| topic := mqtt_topic_prefix self ++ name;
     payload := payload_of name v;
     retain := false |}.

(** What the calls and the log entries of a sweep over [table] are. *)
Definition sweep_call (data : json) (table : list (string * path))
           (c : client_call) : Prop :=
  exists name p v out,
    In (name, p) table
    /\ _get_nested_value data p = Ok v
    /\ v <> JNull
    /\ c = Publish (metric_message name v) out.

Definition sweep_entry (data : json) (table : list (string * path))
           (e : levelname * log_msg) : Prop :=
  exists name p,
    In (name, p) table
    /\ ((_get_nested_value data p = Ok JNull
         /\ e = (WARNING, CouldNotFind name p))
        \/ (exists rc, rc <> 0 /\ e = (ERROR, PublishFailed name rc))
        \/ e = (ERROR, PublishError name ValueError)).

(** [connect_mqtt]: [connect] raises or goes through, and the network loop
    then delivers the broker's answer to [_on_mqtt_connect]. *)
Inductive connect_result : Type :=
| ConnectRaises
| Connack (rc : Z).

Definition connect_mqtt (c : connect_result) : M bool :=
  match c with
  | ConnectRaises => logger ERROR ConnectError ;; ret false
  | Connack rc =>
      client_call_ Connect ;;
      client_call_ LoopStart ;;
      _on_mqtt_connect rc ;;
      ret true
  end.

(** [disconnect_mqtt] *)
Definition disconnect_mqtt : M unit :=
  try_except
    (_ <- mqtt_publish {| topic := availability_topic self;
                          payload := "offline"; retain := true |} ;;
     ret tt)
    (fun e => logger ERROR (AvailabilityOfflineFailed e)) ;;
  client_call_ LoopStop ;;
  client_call_ Disconnect.

(** [run] *)

(** What one turn of the [while] loop meets: the answer of the endpoint, and
    when a signal arrives, if one does: [Some 0] while the fetch is in
    flight, [Some (S k)] during the [k]-th [time.sleep(1)] of the wait. *)
Record cycle : Type := {
  response : http_result;
  signal : option nat
}.

Definition deliver_signal (c : cycle) (now : nat) : M unit :=
  match signal c with
  | Some at_ => if Nat.eqb at_ now then _signal_handler else ret tt
  | None => ret tt
  end.

(** [time.sleep(1)]; a handler that runs meanwhile does not cut it short. *)
Definition time_sleep_1 (c : cycle) (k : nat) : M unit :=
  count_sleep ;; deliver_signal c (S k).

(** [for _ in range(n): if not self.running: break; time.sleep(1)], from
    its [k]-th turn on. *)
Fixpoint wait_loop (c : cycle) (k : nat) (remaining : nat) : M unit :=
  match remaining with
  | O => ret tt
  | S r =>
      on <- get_running ;;
      if negb on then ret tt
      else time_sleep_1 c k ;; wait_loop c (S k) r
  end.

Definition cycle_body (c : cycle) : M unit :=
  logger INFO Polling ;;
  data <- (deliver_signal c 0 ;; _fetch_econet_data (response c)) ;;
  (if truthy data then _ <- _publish_metrics data ;; ret tt
   else logger ERROR NoData) ;;
  wait_loop c 0 (Z.to_nat (polling_interval self)).

(** How the [while] loop stands when the schedule has been used up. *)
Inductive loop_end : Type :=
| LoopLeft
| StillPolling.

Fixpoint poll_loop (schedule : list cycle) : M loop_end :=
  match schedule with
  | [] => on <- get_running ;; ret (if on then StillPolling else LoopLeft)
  | c :: rest =>
      on <- get_running ;;
      if negb on then ret LoopLeft
      else cycle_body c ;; poll_loop rest
  end.

Definition shutdown : M unit :=
  logger INFO ShuttingDown ;;
  disconnect_mqtt ;;
  logger INFO ShutdownComplete.

(** The [try] statement around the loop.  [Ok StillPolling] means the
    schedule ended with the loop alive, so neither [except] nor [finally]
    has run. *)
Definition main_loop (schedule : list cycle) : M loop_end :=
  fun st =>
    match poll_loop schedule st with
    | (Ok StillPolling, st') => (Ok StillPolling, st')
    | (r, st') =>
        try_finally
          (try_except (lift r) (fun e => logger ERROR (UnexpectedError e) ;;
                                         ret LoopLeft))
          shutdown st'
    end.

(** [run] *)
Definition run (c : connect_result) (schedule : list cycle) : M loop_end :=
  logger INFO Starting ;;
  connected <- connect_mqtt c ;;
  if negb connected then logger ERROR ConnectFailedExiting ;; raise SystemExit
  else _publish_ha_discovery ;; main_loop schedule.

(** *** States the properties below speak of *)

(** The entry that closes a sweep. *)
Definition summary_entry (pv : list (string * json)) : levelname * log_msg :=
  match pv with
  | _ :: _ => (INFO, PublishedValues pv)
  | [] => (WARNING, NoValuesPublished)
  end.

(** The state in which the fetch of cycle [c] is made. *)
Definition at_fetch (c : cycle) (st : state) : state :=
  snd (deliver_signal c 0 (logged [(INFO, Polling)] st)).

Definition offline_message : message :=
  {| topic := availability_topic self; payload := "offline"; retain := true |}.

Definition online_message : message :=
  {| topic := availability_topic self; payload := "online"; retain := true |}.

(** The state after an availability publish: the call, and an error entry
    when the call raised. *)
Definition after_publish (m : message) (failed : exn -> log_msg) (st : state)
  : state :=
  match broker (List.length (client st)) m with
  | PubRc rc => called [Publish m (PubRc rc)] st
  | PubRaise => logged [(ERROR, failed ValueError)] (called [Publish m PubRaise] st)
  end.

End Publisher.

(** ** A concrete setting

    The settings [__init__] reads when only the endpoint is set, a broker
    that takes every message, and two cycles: one whose fetch raises an
    error that [_fetch_econet_data] does not catch, one whose fetch returns
    a document. *)

Definition default_settings : settings :=
  {| mqtt_topic_prefix := "econet/";
     polling_interval := 10;
     ha_discovery := true;
     ha_discovery_name := "Grant R290" |}.

Definition willing_broker : nat -> message -> pub_outcome :=
  fun _ _ => PubRc 0.

Definition failing_cycle : cycle :=
  {| response := HttpOtherError; signal := None |}.

Definition cylinder_document : json :=
  JObj [("curr", JObj [("TempCWU", JInt 48)])].

Definition cylinder_cycle : cycle :=
  {| response := HttpJson cylinder_document; signal := None |}.

(** ** The availability topic as the broker holds it

    The broker is not part of the program.  It keeps the last retained
    payload it accepted on a topic, and when a client is lost without a
    [Disconnect] it publishes the will that client registered. *)

Inductive availability : Type := Offline | Online.

Definition accepted_on (t : string) (c : client_call) : option string :=
  match c with
  | Publish m (PubRc 0) =>
      if retain m && String.eqb (topic m) t then Some (payload m) else None
  | _ => None
  end.

(** The retained payload on [t] after the calls [cs], [held] before them. *)
Fixpoint retained_on (t : string) (cs : list client_call) (held : option string)
  : option string :=
  match cs with
  | [] => held
  | c :: rest =>
      retained_on t rest
                  (match accepted_on t c with Some p => Some p | None => held end)
  end.

Definition is_will (c : client_call) : bool :=
  match c with WillSet _ => true | _ => false end.

(** The will in force after the calls [cs]: the last one set. *)
Fixpoint last_will (cs : list client_call) (w : option message) : option message :=
  match cs with
  | [] => w
  | WillSet m :: rest => last_will rest (Some m)
  | _ :: rest => last_will rest w
  end.

(** The retained payload on [t] once the client that made the calls [cs] is
    lost. *)
Definition after_connection_lost (t : string) (cs : list client_call)
           (held : option string) : option string :=
  match last_will cs None with
  | Some w =>
      if retain w && String.eqb (topic w) t then Some (payload w)
      else retained_on t cs held
  | None => retained_on t cs held
  end.

Definition availability_of (held : option string) : availability :=
  match held with
  | Some p => if String.eqb p "online" then Online else Offline
  | None => Offline
  end.

(** A computation that registers no will: whatever calls it makes on the
    client, none is [will_set]. *)
Definition registers_no_will {A} (m : M A) : Prop :=
  forall st,
  exists cs,
    client (snd (m st)) = (client st ++ cs)%list
    /\ forallb (fun c => negb (is_will c)) cs = true.

(** ** The resolver as the specification words it

    Object by key, array by index within [0, len), anything else is absent;
    a non-empty array at the end of the path gives its first element. *)

Module Spec.

Definition step (v : json) (s : seg) : option json :=
  match v, s with
  | JObj d, SKey k => Py.dict_get k d
  | JArr l, SIdx i =>
      if (0 <=? i) && (i <? Z.of_nat (List.length l))
      then nth_error l (Z.to_nat i)
      else None
  | _, _ => None
  end.

Fixpoint addressed (v : json) (p : path) : option json :=
  match p with
  | [] => Some v
  | s :: rest =>
      match step v s with
      | Some w => addressed w rest
      | None => None
      end
  end.

Definition unwrap (v : json) : json :=
  match v with
  | JArr (first :: _) => first
  | _ => v
  end.

End Spec.

(** A path element that cannot be followed from [v], as the code reads
    paths: a list takes [int(key)] for a string key, and an index in
    [-len, 0) counts from the end. *)
Inductive Mismatch {T : PyText} : json -> seg -> Prop :=
| missing_key d k :
    Py.dict_get k d = None -> Mismatch (JObj d) (SKey k)
| object_by_index d i :
    Mismatch (JObj d) (SIdx i)
| index_out_of_range l i :
    i < - Z.of_nat (List.length l) \/ Z.of_nat (List.length l) <= i ->
    Mismatch (JArr l) (SIdx i)
| array_by_key l k :
    Py.int_of_str k = None -> Mismatch (JArr l) (SKey k)
| array_by_numeral_out_of_range l k i :
    Py.int_of_str k = Some i ->
    i < - Z.of_nat (List.length l) \/ Z.of_nat (List.length l) <= i ->
    Mismatch (JArr l) (SKey k)
| scalar_addressed v s :
    (forall d, v <> JObj d) -> (forall l, v <> JArr l) -> Mismatch v s.

(** A path element the specification and the code read alike: a key that
    [int] refuses, or an index that is not negative. *)
Definition plain_seg {T : PyText} (s : seg) : bool :=
  match s with
  | SKey k => match Py.int_of_str k with None => true | Some _ => false end
  | SIdx i => 0 <=? i
  end.

(** ** What a sweep sends

    The messages of the [publish] calls among [cs], and the messages a sweep
    over [table] owes for the document [data]: one for each metric whose
    value is not [None], in table order. *)

Fixpoint sent_messages (cs : list client_call) : list message :=
  match cs with
  | [] => []
  | Publish m _ :: rest => m :: sent_messages rest
  | _ :: rest => sent_messages rest
  end.

Definition present_value {T : PyText} (data : json) (p : path) : option json :=
  match _get_nested_value data p with
  | Ok v => if is_None v then None else Some v
  | Raise _ => None
  end.

Definition due_messages {T : PyText} (self : settings) (data : json)
           (table : list (string * path)) : list message :=
  flat_map (fun entry =>
              match present_value data (snd entry) with
              | Some v => [metric_message self (fst entry) v]
              | None => []
              end) table.

Definition due_values {T : PyText} (data : json) (table : list (string * path))
  : list (string * json) :=
  flat_map (fun entry =>
              match present_value data (snd entry) with
              | Some v => [(fst entry, JStr (payload_of (fst entry) v))]
              | None => []
              end) table.

Definition missing_warnings {T : PyText} (data : json)
           (table : list (string * path)) : list (levelname * log_msg) :=
  flat_map (fun entry =>
              match present_value data (snd entry) with
              | Some _ => []
              | None => [(WARNING, CouldNotFind (fst entry) (snd entry))]
              end) table.

(** The call that registers one entry of the discovery table. *)
Definition registers {T : PyText} (self : settings) (call : client_call)
           (entry : string * list (string * json)) : Prop :=
  exists d out,
    discovery_payload self (fst entry) (snd entry) = Ok d
    /\ call = Publish {| topic := discovery_topic (fst entry) (snd entry);
                         payload := json_dumps (JObj d);
                         retain := true |} out.

(** ** [__init__]: the environment, the checks and the client set-up *)

Module Init.

Definition environ : Type := list (string * string).

(** [os.getenv(key)] and [os.getenv(key, default)]. *)
Fixpoint getenv (env : environ) (key : string) : option string :=
  match env with
  | [] => None
  | (k, v) :: rest => if String.eqb k key then Some v else getenv rest key
  end.

Definition getenv_or (env : environ) (key default : string) : string :=
  match getenv env key with
  | Some v => v
  | None => default
  end.

(** [str.lower] and [str.endswith('/')] on ASCII text. *)
Definition lower_char (c : ascii) : ascii :=
  let n := nat_of_ascii c in
  if ((65 <=? n) && (n <=? 90))%nat then ascii_of_nat (n + 32) else c.

Fixpoint lower (s : string) : string :=
  match s with
  | EmptyString => EmptyString
  | String c rest => String (lower_char c) (lower rest)
  end.

Fixpoint endswith_slash (s : string) : bool :=
  match s with
  | EmptyString => false
  | String c EmptyString => Ascii.eqb c "/"
  | String _ rest => endswith_slash rest
  end.

Record attributes : Type := {
  mqtt_host : string;
  mqtt_port : Z;
  mqtt_username : string;
  mqtt_password : string;
  econet_endpoint : string;
  core : settings
}.

(** What [__init__] does besides setting attributes, in order. *)
Inductive init_event : Type :=
| LogEndpointRequired
| UsernamePwSet (username password : string)
| WillRegistered (m : message)
| HandlersInstalled
| LogInitialized (host : string) (port : Z) (prefix endpoint : string)
                 (interval : Z) (discovery : bool)
| LogDeviceName (name : string).

Definition __init__ {T : PyText} (env : environ)
  : result attributes * list init_event :=
  let host := getenv_or env "MQTT_HOST" "localhost" in
  match Py.int_of_str (getenv_or env "MQTT_PORT" "1883") with
  | None => (Raise ValueError, [])
  | Some port =>
      let username := getenv_or env "MQTT_USERNAME" "" in
      let password := getenv_or env "MQTT_PASSWORD" "" in
      let prefix := getenv_or env "MQTT_TOPIC_PREFIX" "econet/" in
      let endpoint := getenv env "ECONET_ENDPOINT" in
      match Py.int_of_str (getenv_or env "POLLING_INTERVAL" "10") with
      | None => (Raise ValueError, [])
      | Some interval =>
          let discovery :=
            String.eqb (lower (getenv_or env "HA_DISCOVERY_MESSAGES" "true")) "true" in
          let name := getenv_or env "HA_DISCOVERY_NAME" "Grant R290" in
          match endpoint with
          | None => (Raise SystemExit, [LogEndpointRequired])
          | Some endpoint =>
              if String.eqb endpoint "" then (Raise SystemExit, [LogEndpointRequired])
              else
                let prefix := if endswith_slash prefix then prefix else prefix ++ "/" in
                let self := {| mqtt_topic_prefix := prefix;
                               polling_interval := interval;
                               ha_discovery := discovery;
                               ha_discovery_name := name |} in
                (Ok {| mqtt_host := host; mqtt_port := port;
                       mqtt_username := username; mqtt_password := password;
                       econet_endpoint := endpoint; core := self |},
                 ((if String.eqb username "" then []
                   else [UsernamePwSet username password])
                    ++ [WillRegistered {| topic := availability_topic self;
                                          payload := "offline"; retain := true |};
                        HandlersInstalled;
                        LogInitialized host port prefix endpoint interval discovery]
                    ++ (if discovery then [LogDeviceName name] else []))%list)
          end
      end
  end.

End Init.

(** * Properties *)

(** ** The resolver *)

Section ResolverProperties.

Context {T : PyText}.

Lemma list_getitem_in_range (l : list json) (i : Z) :
  0 <= i < Z.of_nat (List.length l) ->
  exists v, nth_error l (Z.to_nat i) = Some v /\ Py.list_getitem l i = Ok v.
Proof.
  intros Hi. unfold Py.list_getitem.
  destruct (Z.ltb_spec i 0) as [Hneg | _]; [lia |].
  destruct (Z.leb_spec 0 i) as [_ | Hneg]; [| lia].
  destruct (Z.ltb_spec i (Z.of_nat (List.length l))) as [_ | Hbig]; [| lia].
  simpl.
  destruct (nth_error l (Z.to_nat i)) as [v |] eqn:Hnth.
  - exists v. split; reflexivity.
  - apply nth_error_None in Hnth. lia.
Qed.

Lemma list_getitem_out_of_range (l : list json) (i : Z) :
  i < - Z.of_nat (List.length l) \/ Z.of_nat (List.length l) <= i ->
  Py.list_getitem l i = Raise IndexError.
Proof.
  intros Hi. unfold Py.list_getitem.
  destruct (Z.ltb_spec i 0) as [Hneg | Hpos].
  - destruct (Z.leb_spec 0 (i + Z.of_nat (List.length l))) as [Hge | _];
      [lia | reflexivity].
  - destruct (Z.leb_spec 0 i) as [_ | Hneg]; [| lia].
    destruct (Z.ltb_spec i (Z.of_nat (List.length l))) as [Hlt | _];
      [lia | reflexivity].
Qed.

Lemma list_getitem_raises (l : list json) (i : Z) (e : exn) :
  Py.list_getitem l i = Raise e -> e = IndexError.
Proof.
  unfold Py.list_getitem.
  destruct ((0 <=? _) && (_ <? _)).
  - destruct (nth_error _ _); intros H; inversion H; reflexivity.
  - intros H; inversion H; reflexivity.
Qed.

(** The loop only ever raises what the [except] clause names. *)
Lemma walk_raises (p : path) :
  forall current e,
    walk current p = Raise e ->
    e = KeyError \/ e = IndexError \/ e = ValueError.
Proof.
  induction p as [| key rest IH]; intros current e H; simpl in H.
  - discriminate.
  - destruct current; try discriminate.
    + destruct key as [k | i]; simpl in H.
      * destruct (Py.int_of_str k) as [i |]; simpl in H.
        -- destruct (Py.list_getitem items i) as [v | e'] eqn:Hget; simpl in H.
           ++ eauto.
           ++ inversion H; subst. apply list_getitem_raises in Hget. auto.
        -- inversion H; auto.
      * destruct (Py.list_getitem items i) as [v | e'] eqn:Hget; simpl in H.
        -- eauto.
        -- inversion H; subst. apply list_getitem_raises in Hget. auto.
    + destruct key as [k | i]; simpl in H.
      * destruct (Py.dict_get k members); simpl in H.
        -- eauto.
        -- inversion H; auto.
      * inversion H; auto.
Qed.

Lemma walk_app (pre : path) :
  forall current v post,
    walk current pre = Ok (Some v) ->
    walk current (pre ++ post)%list = walk v post.
Proof.
  induction pre as [| key rest IH]; intros current v post H; simpl in *.
  - inversion H; reflexivity.
  - destruct current; try discriminate.
    + destruct (Py.int key) as [i | e]; simpl in *; [| discriminate].
      destruct (Py.list_getitem items i) as [w | e]; simpl in *;
        [| discriminate].
      apply IH; assumption.
    + destruct (Py.dict_getitem members key) as [w | e]; simpl in *;
        [| discriminate].
      apply IH; assumption.
Qed.

(** A mismatch ends the loop: by [return None] or by a caught exception. *)
Lemma walk_mismatch (v : json) (s : seg) (post : path) :
  Mismatch v s ->
  walk v (s :: post) = Ok None \/
  exists e, walk v (s :: post) = Raise e.
Proof.
  intros Hm. destruct Hm as [d k Hk | d i | l i Hi | l k Hk | l k i Hk Hi | v s Ho Ha];
    simpl.
  - right. rewrite Hk. simpl. eauto.
  - right. eauto.
  - right. rewrite (list_getitem_out_of_range l i Hi). simpl. eauto.
  - right. rewrite Hk. simpl. eauto.
  - right. rewrite Hk. simpl.
    rewrite (list_getitem_out_of_range l i Hi). simpl. eauto.
  - left. destruct v; try reflexivity.
    + exfalso. apply (Ha items). reflexivity.
    + exfalso. apply (Ho members). reflexivity.
Qed.

Lemma get_nested_value_of_walk (data : json) (p : path) :
  (walk data p = Ok None \/ exists e, walk data p = Raise e) ->
  _get_nested_value data p = Ok JNull.
Proof.
  intros [H | [e H]]; unfold _get_nested_value, get_nested_body.
  - rewrite H. reflexivity.
  - rewrite H. simpl.
    destruct (walk_raises _ _ _ H) as [-> | [-> | ->]]; reflexivity.
Qed.

Lemma get_nested_value_total (data : json) (p : path) :
  exists v, _get_nested_value data p = Ok v.
Proof.
  unfold _get_nested_value, get_nested_body.
  destruct (walk data p) as [[current |] | e] eqn:H; simpl.
  - destruct current; eauto. destruct items; eauto.
  - eauto.
  - destruct (walk_raises _ _ _ H) as [-> | [-> | ->]]; eauto.
Qed.

(** On plain path elements the code steps as the specification does. *)
Lemma walk_plain (p : path) :
  forall current,
    forallb plain_seg p = true ->
    match Spec.addressed current p with
    | Some v => walk current p = Ok (Some v)
    | None => walk current p = Ok None \/ exists e, walk current p = Raise e
    end.
Proof.
  induction p as [| key rest IH]; intros current Hp; simpl in *.
  - reflexivity.
  - apply andb_prop in Hp. destruct Hp as [Hkey Hrest].
    destruct current; simpl; auto.
    + (* a list *)
      destruct key as [k | i]; simpl in *.
      * destruct (Py.int_of_str k); [discriminate |]. simpl. eauto.
      * apply Z.leb_le in Hkey. rewrite (proj2 (Z.leb_le 0 i) Hkey). simpl.
        destruct (Z.ltb_spec i (Z.of_nat (List.length items))) as [Hlt | Hge].
        -- destruct (list_getitem_in_range items i (conj Hkey Hlt))
             as [v [Hnth Hget]].
           rewrite Hnth, Hget. simpl. apply IH; assumption.
        -- rewrite (list_getitem_out_of_range items i (or_intror Hge)).
           simpl. eauto.
    + (* a dict *)
      destruct key as [k | i]; simpl in *.
      * destruct (Py.dict_get k members) as [v |]; simpl.
        -- apply IH; assumption.
        -- eauto.
      * eauto.
Qed.

(** Whatever the specification's walk addresses, the loop arrives at. *)
Lemma walk_addressed (p : path) :
  forall current v,
    Spec.addressed current p = Some v -> walk current p = Ok (Some v).
Proof.
  induction p as [| key rest IH]; intros current v H; simpl in *.
  - inversion H; reflexivity.
  - destruct (Spec.step current key) as [w |] eqn:Hstep; [| discriminate].
    destruct current; simpl in Hstep; try discriminate.
    + destruct key as [k | i]; [discriminate |]. simpl.
      destruct ((0 <=? i) && (i <? Z.of_nat (List.length items))) eqn:Hin;
        [| discriminate].
      apply andb_prop in Hin. destruct Hin as [H0 Hn].
      apply Z.leb_le in H0. apply Z.ltb_lt in Hn.
      destruct (list_getitem_in_range items i (conj H0 Hn)) as [w' [Hnth Hget]].
      rewrite Hget. simpl. apply IH. congruence.
    + destruct key as [k | i]; [| discriminate]. simpl.
      rewrite Hstep. simpl. apply IH. assumption.
Qed.

(** Every path of the metric table is plain. *)
Lemma topic_mappings_plain :
  forallb (fun entry => forallb plain_seg (snd entry)) topic_mappings = true.
Proof. vm_compute. reflexivity. Qed.

End ResolverProperties.

(** C2, as the specification states it, fails: a list addressed by the
    string key ["0"] is indexed at [int("0")], and the index [-1] is the
    last element.  The specification's walk is absent on both paths, the
    code returns the element. *)
Lemma resolve_absent_counterexample :
  (Spec.addressed (JObj [("curr", JArr [JInt 21])]) [SKey "curr"; SKey "0"] = None
   /\ @_get_nested_value plain_text (JObj [("curr", JArr [JInt 21])]) [SKey "curr"; SKey "0"]
      = Ok (JInt 21))
  /\
  (Spec.addressed (JObj [("curr", JArr [JInt 21])]) [SKey "curr"; SIdx (-1)] = None
   /\ @_get_nested_value plain_text (JObj [("curr", JArr [JInt 21])]) [SKey "curr"; SIdx (-1)]
      = Ok (JInt 21)).
Proof. repeat split; vm_compute; reflexivity. Qed.

(** C2 (amended).  [_get_nested_value] returns for every document and every
    path: it never raises.  Whenever the loop has reached a value [v] and the
    next path element is a mismatch for it - a missing key, an object
    addressed by an index, an index outside [-len, len), a list addressed by
    a key that [int] refuses or whose integer is outside [-len, len), a scalar
    addressed by anything - the result is [None], wherever in the path this
    happens.  On paths whose keys are no integer literals and whose indices
    are not negative, as all paths of the metric table are, the result is
    [None] whenever the specification's walk is absent. *)
Theorem resolve_absent_on_mismatch {T : PyText} (doc : json) (p : path) :
  (exists v, _get_nested_value doc p = Ok v)
  /\ (forall pre s post v,
         p = (pre ++ s :: post)%list ->
         walk doc pre = Ok (Some v) ->
         Mismatch v s ->
         _get_nested_value doc p = Ok JNull)
  /\ (forallb plain_seg p = true ->
      Spec.addressed doc p = None ->
      _get_nested_value doc p = Ok JNull).
Proof.
  split; [apply get_nested_value_total |]. split.
  - intros pre s post v -> Hpre Hm.
    apply get_nested_value_of_walk.
    rewrite (walk_app pre doc v (s :: post) Hpre).
    apply walk_mismatch; assumption.
  - intros Hplain Habsent.
    apply get_nested_value_of_walk.
    pose proof (walk_plain p doc Hplain) as H.
    rewrite Habsent in H. exact H.
Qed.

Lemma resolve_absent_on_mismatch_witness :
  @_get_nested_value plain_text (JObj [("curr", JObj [("TempWthr", JInt 4)])])
                    [SKey "curr"; SKey "TempCWU"; SIdx 0] = Ok JNull.
Proof.
  apply (proj1 (proj2 (@resolve_absent_on_mismatch plain_text
                         (JObj [("curr", JObj [("TempWthr", JInt 4)])])
                         [SKey "curr"; SKey "TempCWU"; SIdx 0]))
               [SKey "curr"] (SKey "TempCWU") [SIdx 0]
               (JObj [("TempWthr", JInt 4)])).
  - reflexivity.
  - reflexivity.
  - apply missing_key. reflexivity.
Defined.

(** C3.  When every element of the path names an existing key or an index
    within bounds, so that the specification's walk addresses a value [v],
    [_get_nested_value] returns [v] itself, or the first element of [v] when
    [v] is a non-empty list. *)
Theorem resolve_addressed_value {T : PyText} (doc : json) (p : path) (v : json) :
  Spec.addressed doc p = Some v ->
  _get_nested_value doc p = Ok (Spec.unwrap v).
Proof.
  intros H. apply walk_addressed in H.
  unfold _get_nested_value, get_nested_body. rewrite H. simpl.
  destruct v; try reflexivity.
  destruct items; reflexivity.
Qed.

Lemma resolve_addressed_value_witness :
  @_get_nested_value plain_text
    (JObj [("tilesParams", JArr [JArr [JArr [JStr "21.0"; JInt 1; JInt 0]]])])
    [SKey "tilesParams"; SIdx 0; SIdx 0]
  = Ok (JStr "21.0").
Proof.
  apply (@resolve_addressed_value plain_text
           (JObj [("tilesParams", JArr [JArr [JArr [JStr "21.0"; JInt 1; JInt 0]]])])
           [SKey "tilesParams"; SIdx 0; SIdx 0]
           (JArr [JStr "21.0"; JInt 1; JInt 0])).
  reflexivity.
Defined.

(** ** The valve state *)

Lemma float_eq_int_zero (f : spec_float) :
  float_eq_int f 0 = true <-> exists s, f = S754_zero s.
Proof.
  split.
  - destruct f as [s | s | | s m e]; simpl; try discriminate.
    + intros _. exists s. reflexivity.
    + intros H. exfalso.
      destruct (0 <=? e) eqn:He.
      * apply Z.eqb_eq in H. apply Z.leb_le in He.
        assert (0 < 2 ^ e) by (apply Z.pow_pos_nonneg; lia).
        destruct s; nia.
      * apply Z.eqb_eq in H. destruct s; lia.
  - intros [s ->]. reflexivity.
Qed.

Lemma py_eq_int_zero (v : json) :
  py_eq_int v 0 = true <->
  v = JInt 0 \/ v = JBool false \/ exists s, v = JFloat (S754_zero s).
Proof.
  split.
  - destruct v; simpl; try discriminate.
    + destruct b; [discriminate | auto].
    + intros H. apply Z.eqb_eq in H. subst. auto.
    + intros H. apply float_eq_int_zero in H. destruct H as [s ->]. eauto.
  - intros [-> | [-> | [s ->]]]; reflexivity.
Qed.

Lemma py_eq_int_three (v : json) :
  py_eq_int v 3 = true <->
  v = JInt 3 \/ exists f, v = JFloat f /\ float_eq_int f 3 = true.
Proof.
  split.
  - destruct v; simpl; try discriminate.
    + destruct b; discriminate.
    + intros H. apply Z.eqb_eq in H. subst. auto.
    + intros H. eauto.
  - intros [-> | [f [-> H]]]; [reflexivity | exact H].
Qed.

(** C6, as stated, fails on the scalar [False]: it is not the number 0, so
    its default string form ["False"] is claimed, but [False == 0] holds in
    Python and the code renders ["CH"]. *)
Lemma valve_state_counterexample :
  @_convert_valve_state plain_text (JBool false) = "CH"
  /\ @py_str plain_text (JBool false) = "False".
Proof. split; reflexivity. Qed.

(** C6 (amended).  [_convert_valve_state] returns a string for every value:
    ["CH"] when the value compares equal to 0 - the integer 0, a float zero
    or [False] -, ["DHW"] when it compares equal to 3 - the integer 3 or the
    float 3.0 -, and [str(value)] in every other case, so 7 renders as
    ["7"].  Conversely a result ["CH"] comes from a value equal to 0 or from
    a value whose own string form is ["CH"], and likewise for ["DHW"]. *)
Theorem valve_state_rendering {T : PyText} (v : json) :
  ((v = JInt 0 \/ v = JBool false \/ exists s, v = JFloat (S754_zero s)) ->
   _convert_valve_state v = "CH")
  /\ ((v = JInt 3 \/ exists f, v = JFloat f /\ float_eq_int f 3 = true) ->
      _convert_valve_state v = "DHW")
  /\ (~ (v = JInt 0 \/ v = JBool false \/ exists s, v = JFloat (S754_zero s)) ->
      ~ (v = JInt 3 \/ exists f, v = JFloat f /\ float_eq_int f 3 = true) ->
      _convert_valve_state v = py_str v)
  /\ @_convert_valve_state T (JInt 7) = "7"
  /\ (_convert_valve_state v = "CH" ->
      (v = JInt 0 \/ v = JBool false \/ exists s, v = JFloat (S754_zero s))
      \/ py_str v = "CH")
  /\ (_convert_valve_state v = "DHW" ->
      (v = JInt 3 \/ exists f, v = JFloat f /\ float_eq_int f 3 = true)
      \/ py_str v = "DHW").
Proof.
  unfold _convert_valve_state. repeat split.
  - intros H. apply py_eq_int_zero in H. rewrite H. reflexivity.
  - intros H. assert (H0 : py_eq_int v 0 = false).
    { destruct H as [-> | [f [-> Hf]]]; [reflexivity |]. simpl.
      destruct (float_eq_int f 0) eqn:E; [| reflexivity].
      apply float_eq_int_zero in E. destruct E as [s ->]. discriminate. }
    apply py_eq_int_three in H. rewrite H0, H. reflexivity.
  - intros Hz Ht.
    destruct (py_eq_int v 0) eqn:E0.
    + exfalso. apply Hz. apply py_eq_int_zero. assumption.
    + destruct (py_eq_int v 3) eqn:E3; [| reflexivity].
      exfalso. apply Ht. apply py_eq_int_three. assumption.
  - destruct (py_eq_int v 0) eqn:E0.
    + intros _. left. apply py_eq_int_zero. assumption.
    + destruct (py_eq_int v 3); [discriminate | auto].
  - destruct (py_eq_int v 0) eqn:E0; [discriminate |].
    destruct (py_eq_int v 3) eqn:E3.
    + intros _. left. apply py_eq_int_three. assumption.
    + auto.
Qed.

Lemma valve_state_rendering_witness :
  @_convert_valve_state plain_text (JFloat (S754_finite false 3 0)) = "DHW"
  /\ @_convert_valve_state plain_text (JStr "0") = "0".
Proof.
  split.
  - apply (proj1 (proj2 (@valve_state_rendering plain_text
                           (JFloat (S754_finite false 3 0))))).
    right. exists (S754_finite false 3 0). split; reflexivity.
  - apply (proj1 (proj2 (proj2 (@valve_state_rendering plain_text (JStr "0"))))).
    + intros [H | [H | [s H]]]; discriminate.
    + intros [H | [f [H _]]]; discriminate.
Defined.

(** ** Discovery *)

Lemma dict_get_set_other (key key' : string) (v : json) (d : list (string * json)) :
  key <> key' ->
  Py.dict_get key (Py.dict_set key' v d) = Py.dict_get key d.
Proof.
  intros Hne. induction d as [| [k w] rest IH]; simpl.
  - destruct (String.eqb_spec key' key); [congruence | reflexivity].
  - destruct (String.eqb_spec k key') as [-> | Hk]; simpl.
    + destruct (String.eqb_spec key' key); [congruence | reflexivity].
    + destruct (String.eqb k key); [reflexivity | exact IH].
Qed.

Lemma dict_get_set_same (key : string) (v : json) (d : list (string * json)) :
  Py.dict_get key (Py.dict_set key v d) = Some v.
Proof.
  induction d as [| [k w] rest IH]; simpl.
  - rewrite String.eqb_refl. reflexivity.
  - destruct (String.eqb_spec k key) as [-> | Hk]; simpl.
    + rewrite String.eqb_refl. reflexivity.
    + destruct (String.eqb_spec k key); [congruence | exact IH].
Qed.

Lemma dict_get_copy_other (key key' : string) (config d : list (string * json)) :
  key <> key' ->
  Py.dict_get key (copy_key key' config d) = Py.dict_get key d.
Proof.
  intros Hne. unfold copy_key.
  destruct (Py.dict_get key' config); [| reflexivity].
  apply dict_get_set_other. assumption.
Qed.

(** For any metadata with a name, the payload holds [expire_after],
    four times the polling interval, exactly when the component is a
    sensor. *)
Lemma discovery_expire_after (self : settings) (topic_name : string)
      (config : list (string * json)) (name : json) :
  Py.dict_get "name" config = Some name ->
  exists d,
    discovery_payload self topic_name config = Ok d
    /\ Py.dict_get "expire_after" d =
       if String.eqb (component_of config) "sensor"
       then Some (JInt (polling_interval self * 4))
       else None.
Proof.
  intros Hname. unfold discovery_payload.
  remember (polling_interval self * 4) as expiry eqn:Hexpiry.
  simpl. rewrite Hname. simpl.
  eexists. split; [reflexivity |].
  assert (Hcomp : component_of config = "sensor"
                  \/ component_of config = "binary_sensor").
  { unfold component_of. destruct (_ || _); auto. }
  destruct (is_str (Py.dict_get "device_class" config) "enum");
    [rewrite dict_get_copy_other by discriminate |];
    (destruct Hcomp as [-> | ->]; simpl;
     repeat (rewrite dict_get_copy_other by discriminate);
     reflexivity).
Qed.

(** C7.  For every metric of the table the component is ["binary_sensor"]
    exactly when its metadata declares the device class ["running"] or an
    on/off payload pair, and ["sensor"] otherwise; the payload holds
    [expire_after = 4 * polling_interval] exactly when the component is
    ["sensor"], and has no [expire_after] key when it is ["binary_sensor"]. *)
Theorem discovery_component_and_expiry (self : settings) (topic_name : string)
        (config : list (string * json)) :
  In (topic_name, config) ha_discovery_configs ->
  (component_of config = "binary_sensor" <->
   (Py.dict_get "device_class" config = Some (JStr "running")
    \/ (Py.dict_get "payload_on" config <> None
        /\ Py.dict_get "payload_off" config <> None)))
  /\ (component_of config = "sensor" <->
      ~ (Py.dict_get "device_class" config = Some (JStr "running")
         \/ (Py.dict_get "payload_on" config <> None
             /\ Py.dict_get "payload_off" config <> None)))
  /\ exists d,
      discovery_payload self topic_name config = Ok d
      /\ (component_of config = "sensor" ->
          Py.dict_get "expire_after" d = Some (JInt (4 * polling_interval self)))
      /\ (component_of config = "binary_sensor" ->
          Py.dict_get "expire_after" d = None).
Proof.
  intros Hin.
  assert (Hname : exists name, Py.dict_get "name" config = Some name).
  { simpl in Hin.
    repeat (destruct Hin as [Hin | Hin];
            [inversion Hin; subst; eexists; reflexivity |]).
    contradiction. }
  destruct Hname as [name Hname].
  destruct (discovery_expire_after self topic_name config name Hname)
    as [d [Hd Hexp]].
  split; [| split].
  - simpl in Hin.
    repeat (destruct Hin as [Hin | Hin];
            [inversion Hin; subst; cbn; split;
             [ intros H; first [discriminate H | left; reflexivity]
             | intros [H | [H1 H2]];
               first [reflexivity | discriminate H | exfalso; apply H1; reflexivity] ]
            |]).
    contradiction.
  - simpl in Hin.
    repeat (destruct Hin as [Hin | Hin];
            [inversion Hin; subst; cbn; split;
             [ intros H; first [discriminate H
                               | intros [H' | [H1 H2]];
                                 first [discriminate H' | apply H1; reflexivity] ]
             | intros H; first [reflexivity | exfalso; apply H; left; reflexivity] ]
            |]).
    contradiction.
  - exists d. split; [exact Hd |].
    split; intros Hc; rewrite Hc in Hexp; simpl in Hexp;
      [rewrite Z.mul_comm |]; exact Hexp.
Qed.

Lemma discovery_component_and_expiry_witness :
  exists d,
    discovery_payload
      {| mqtt_topic_prefix := "econet/"; polling_interval := 10;
         ha_discovery := true; ha_discovery_name := "Grant R290" |}
      "dhw_temp"
      (measured "Cylinder Temperature" "temperature" "°C" "mdi:water-thermometer")
    = Ok d
    /\ Py.dict_get "expire_after" d = Some (JInt 40).
Proof.
  destruct (discovery_component_and_expiry
              {| mqtt_topic_prefix := "econet/"; polling_interval := 10;
                 ha_discovery := true; ha_discovery_name := "Grant R290" |}
              "dhw_temp"
              (measured "Cylinder Temperature" "temperature" "°C"
                        "mdi:water-thermometer"))
    as [_ [_ [d [Hd [Hs _]]]]].
  - simpl. do 11 right. left. reflexivity.
  - exists d. split; [exact Hd | apply Hs; reflexivity].
Defined.

(** ** The publish sweep *)

Lemma logged_logged (l1 l2 : list (levelname * log_msg)) (st : state) :
  logged l2 (logged l1 st) = logged (l1 ++ l2) st.
Proof. unfold logged. simpl. rewrite <- app_assoc. reflexivity. Qed.

Lemma called_called (c1 c2 : list client_call) (st : state) :
  called c2 (called c1 st) = called (c1 ++ c2) st.
Proof. unfold called. simpl. rewrite <- app_assoc. reflexivity. Qed.

Lemma called_logged (l : list (levelname * log_msg)) (c : list client_call)
      (st : state) :
  called c (logged l st) = logged l (called c st).
Proof. reflexivity. Qed.

Lemma logged_nil (st : state) : logged [] st = st.
Proof. destruct st. unfold logged. simpl. rewrite app_nil_r. reflexivity. Qed.

Lemma called_nil (st : state) : called [] st = st.
Proof. destruct st. unfold called. simpl. rewrite app_nil_r. reflexivity. Qed.

Lemma string_app_inv_head (a b c : string) : a ++ b = a ++ c -> b = c.
Proof.
  induction a as [| ch a IH]; simpl; intros H.
  - exact H.
  - inversion H. auto.
Qed.

Lemma topic_names_unique : NoDup (map fst topic_mappings).
Proof.
  simpl. repeat (constructor; [simpl; intuition discriminate |]). constructor.
Qed.

Lemma unique_name_path (table : list (string * path)) (name : string)
      (p q : path) :
  NoDup (map fst table) -> In (name, p) table -> In (name, q) table -> p = q.
Proof.
  induction table as [| [n r] rest IH]; simpl; intros Hnd Hp Hq.
  - contradiction.
  - inversion Hnd as [| ? ? Hnotin Hnd']; subst.
    destruct Hp as [Hp | Hp]; destruct Hq as [Hq | Hq].
    + congruence.
    + inversion Hp; subst. exfalso. apply Hnotin.
      apply (in_map fst) in Hq. exact Hq.
    + inversion Hq; subst. exfalso. apply Hnotin.
      apply (in_map fst) in Hp. exact Hp.
    + auto.
Qed.

Section Sweep.

Context {T : PyText}.
Variable broker : nat -> message -> pub_outcome.
Variable self : settings.

Lemma is_None_false (v : json) : v <> JNull -> is_None v = false.
Proof. destruct v; simpl; congruence. Qed.

(** An absent value: one warning, no call, the dict untouched. *)
Lemma publish_one_absent (data : json) (pv : list (string * json))
      (name : string) (p : path) (st : state) :
  _get_nested_value data p = Ok JNull ->
  publish_one broker self data pv (name, p) st
  = (Ok pv, logged [(WARNING, CouldNotFind name p)] st).
Proof.
  intros H. unfold publish_one, bind, lift. rewrite H. reflexivity.
Qed.

(** A present value: one call, and what follows depends on its outcome. *)
Lemma publish_one_present (data : json) (pv : list (string * json))
      (name : string) (p : path) (v : json) (st : state) :
  _get_nested_value data p = Ok v ->
  v <> JNull ->
  publish_one broker self data pv (name, p) st
  = match broker (List.length (client st)) (metric_message self name v) with
    | PubRc rc =>
        if rc =? 0
        then (Ok (Py.dict_set name (JStr (payload_of name v)) pv),
              called [Publish (metric_message self name v) (PubRc rc)] st)
        else (Ok pv,
              logged [(ERROR, PublishFailed name rc)]
                     (called [Publish (metric_message self name v) (PubRc rc)] st))
    | PubRaise =>
        (Ok pv,
         logged [(ERROR, PublishError name ValueError)]
                (called [Publish (metric_message self name v) PubRaise] st))
    end.
Proof.
  intros H Hv. unfold publish_one, bind, lift. rewrite H.
  rewrite (is_None_false v Hv). simpl.
  unfold try_except, bind, mqtt_publish. fold (metric_message self name v).
  destruct (broker (List.length (client st)) (metric_message self name v)) as [rc |].
  - destruct (rc =? 0); reflexivity.
  - reflexivity.
Qed.

Lemma sweep_call_weaken data table table' c :
  (forall e, In e table -> In e table') ->
  sweep_call self data table c -> sweep_call self data table' c.
Proof.
  intros Hsub (name & p & v & out & Hin & H). exists name, p, v, out.
  split; [apply Hsub; exact Hin | exact H].
Qed.

Lemma sweep_entry_weaken data table table' e :
  (forall x, In x table -> In x table') ->
  sweep_entry data table e -> sweep_entry data table' e.
Proof.
  intros Hsub (name & p & Hin & H). exists name, p.
  split; [apply Hsub; exact Hin | exact H].
Qed.

(** One turn never raises; it leaves one trace, and only sets its own key. *)
Lemma publish_one_effects (data : json) (pv : list (string * json))
      (name : string) (p : path) (st : state) :
  exists pv' l c,
    publish_one broker self data pv (name, p) st = (Ok pv', logged l (called c st))
    /\ Forall (sweep_call self data [(name, p)]) c
    /\ Forall (sweep_entry data [(name, p)]) l
    /\ (forall key, key <> name -> Py.dict_get key pv' = Py.dict_get key pv).
Proof.
  destruct (get_nested_value_total data p) as [v Hv].
  assert (Hcall : forall out,
             v <> JNull ->
             Forall (sweep_call self data [(name, p)])
                    [Publish (metric_message self name v) out]).
  { intros out Hnn. constructor; [| constructor].
    exists name, p, v, out. simpl. auto. }
  destruct v;
    try (rewrite (publish_one_present data pv name p _ st Hv) by discriminate;
         match goal with
         | |- context [broker ?n ?m] => destruct (broker n m) as [rc |] eqn:Hout
         end;
         [ destruct (Z.eqb_spec rc 0) as [Hrc | Hrc];
           [ eexists _, [], _; rewrite logged_nil; split; [reflexivity |];
             split; [apply Hcall; discriminate |];
             split; [constructor |];
             intros key Hkey; apply dict_get_set_other; exact Hkey
           | eexists _, _, _; split; [reflexivity |];
             split; [apply Hcall; discriminate |];
             split; [| reflexivity];
             constructor; [| constructor];
             exists name, p; split; [simpl; auto |];
             right; left; exists rc; auto ]
         | eexists _, _, _; split; [reflexivity |];
           split; [apply Hcall; discriminate |];
           split; [| reflexivity];
           constructor; [| constructor];
           exists name, p; split; [simpl; auto |]; right; right; reflexivity ]).
  rewrite (publish_one_absent data pv name p st Hv).
  eexists pv, _, []. rewrite called_nil. split; [reflexivity |].
  split; [constructor |]. split; [| reflexivity].
  constructor; [| constructor].
  exists name, p. split; [simpl; auto |]. left. auto.
Qed.

(** The whole loop never raises; its calls and log entries are those of its
    metrics, and keys outside the table are untouched. *)
Lemma publish_loop_effects (data : json) (table : list (string * path)) :
  forall pv st,
  exists pv' l c,
    publish_loop broker self data table pv st = (Ok pv', logged l (called c st))
    /\ Forall (sweep_call self data table) c
    /\ Forall (sweep_entry data table) l
    /\ (forall key, ~ In key (map fst table) ->
                    Py.dict_get key pv' = Py.dict_get key pv).
Proof.
  induction table as [| [name p] rest IH]; intros pv st.
  - exists pv, [], []. rewrite logged_nil, called_nil. simpl. unfold ret. auto.
  - destruct (publish_one_effects data pv name p st)
      as (pv1 & l1 & c1 & Hone & Hc1 & Hl1 & Hk1).
    destruct (IH pv1 (logged l1 (called c1 st)))
      as (pv2 & l2 & c2 & Hrest & Hc2 & Hl2 & Hk2).
    exists pv2, (l1 ++ l2)%list, (c1 ++ c2)%list.
    split; [| split; [| split]].
    + cbn [publish_loop]. unfold bind at 1. rewrite Hone. rewrite Hrest.
      rewrite called_logged, called_called, logged_logged. reflexivity.
    + apply Forall_app. split.
      * eapply Forall_impl; [| exact Hc1]. intros c. apply sweep_call_weaken.
        intros e [<- | []]. left. reflexivity.
      * eapply Forall_impl; [| exact Hc2]. intros c. apply sweep_call_weaken.
        intros e He. right. exact He.
    + apply Forall_app. split.
      * eapply Forall_impl; [| exact Hl1]. intros e. apply sweep_entry_weaken.
        intros x [<- | []]. left. reflexivity.
      * eapply Forall_impl; [| exact Hl2]. intros e. apply sweep_entry_weaken.
        intros x Hx. right. exact Hx.
    + intros key Hkey. simpl in Hkey.
      rewrite Hk2 by tauto. apply Hk1. intros ->. tauto.
Qed.

Lemma publish_loop_app (data : json) (pre post : list (string * path)) :
  forall pv st pv0 st0,
    publish_loop broker self data pre pv st = (Ok pv0, st0) ->
    publish_loop broker self data (pre ++ post) pv st
    = publish_loop broker self data post pv0 st0.
Proof.
  induction pre as [| e pre IH]; intros pv st pv0 st0 H; simpl in *.
  - unfold ret in H. inversion H. reflexivity.
  - unfold bind at 1. unfold bind at 1 in H.
    destruct (publish_one broker self data pv e st) as [[pv1 | ex] st1].
    + apply IH. exact H.
    + discriminate.
Qed.

(** A sweep seen from one of its metrics: the metrics before it, its own
    turn, and the metrics after it. *)
Lemma publish_loop_split (data : json) (pre post : list (string * path))
      (name : string) (p : path) (pv : list (string * json)) (st : state) :
  ~ In name (map fst pre) ->
  ~ In name (map fst post) ->
  exists pv0 l0 c0 pv1 l1 c1 pv2 l2 c2,
    let st0 := logged l0 (called c0 st) in
    let st1 := logged l1 (called c1 st0) in
    let st2 := logged l2 (called c2 st1) in
    publish_loop broker self data pre pv st = (Ok pv0, st0)
    /\ publish_one broker self data pv0 (name, p) st0 = (Ok pv1, st1)
    /\ publish_loop broker self data post pv1 st1 = (Ok pv2, st2)
    /\ publish_loop broker self data (pre ++ (name, p) :: post) pv st = (Ok pv2, st2)
    /\ st2 = logged (l0 ++ l1 ++ l2) (called (c0 ++ c1 ++ c2) st)
    /\ Forall (sweep_call self data pre) c0
    /\ Forall (sweep_call self data post) c2
    /\ Py.dict_get name pv0 = Py.dict_get name pv
    /\ Py.dict_get name pv2 = Py.dict_get name pv1.
Proof.
  intros Hpre Hpost.
  destruct (publish_loop_effects data pre pv st)
    as (pv0 & l0 & c0 & H0 & Hc0 & _ & Hk0).
  destruct (publish_one_effects data pv0 name p (logged l0 (called c0 st)))
    as (pv1 & l1 & c1 & H1 & _ & _ & _).
  destruct (publish_loop_effects data post pv1
              (logged l1 (called c1 (logged l0 (called c0 st)))))
    as (pv2 & l2 & c2 & H2 & Hc2 & _ & Hk2).
  exists pv0, l0, c0, pv1, l1, c1, pv2, l2, c2. cbv zeta.
  repeat split; auto.
  - rewrite (publish_loop_app data pre ((name, p) :: post) pv st _ _ H0).
    cbn [publish_loop]. unfold bind at 1. rewrite H1. exact H2.
  - rewrite !called_logged, !called_called, !logged_logged.
    rewrite <- ?app_assoc. reflexivity.
Qed.

Lemma in_table_split (name : string) (p : path) :
  In (name, p) topic_mappings ->
  exists pre post,
    topic_mappings = (pre ++ (name, p) :: post)%list
    /\ ~ In name (map fst pre) /\ ~ In name (map fst post).
Proof.
  intros Hin. destruct (in_split _ _ Hin) as (pre & post & Heq).
  exists pre, post. split; [exact Heq |].
  pose proof topic_names_unique as Hnd. rewrite Heq in Hnd.
  rewrite map_app in Hnd. simpl in Hnd.
  apply NoDup_remove_2 in Hnd. rewrite in_app_iff in Hnd. tauto.
Qed.

Lemma split_names_unique (pre post : list (string * path)) (name : string)
      (p : path) :
  topic_mappings = (pre ++ (name, p) :: post)%list ->
  ~ In name (map fst pre) /\ ~ In name (map fst post).
Proof.
  intros Heq. pose proof topic_names_unique as Hnd. rewrite Heq in Hnd.
  rewrite map_app in Hnd. simpl in Hnd.
  apply NoDup_remove_2 in Hnd. rewrite in_app_iff in Hnd. tauto.
Qed.

(** No call of a sweep is on the topic of a metric whose value is [None]. *)
Lemma sweep_call_other_topic (data : json) (name : string) (p : path)
      (c : client_call) (m : message) (out : pub_outcome) :
  In (name, p) topic_mappings ->
  _get_nested_value data p = Ok JNull ->
  sweep_call self data topic_mappings c ->
  c = Publish m out ->
  topic m <> mqtt_topic_prefix self ++ name.
Proof.
  intros Hin Hnull (n & q & v & out' & Hin' & Hv & Hnn & ->) Heq Htopic.
  inversion Heq; subst. simpl in Htopic.
  apply string_app_inv_head in Htopic. subst n.
  assert (q = p) by (eapply unique_name_path; eauto using topic_names_unique).
  subst q. rewrite Hnull in Hv. inversion Hv. congruence.
Qed.

End Sweep.

(** ** The wait between two cycles *)

Lemma time_sleep_1_eq (c : cycle) (k : nat) (st : state) :
  time_sleep_1 c k st
  = (Ok tt,
     match signal c with
     | Some at_ =>
         if Nat.eqb at_ (S k)
         then with_running false (logged [(INFO, ReceivedSignal)] (one_more_sleep st))
         else one_more_sleep st
     | None => one_more_sleep st
     end).
Proof.
  unfold time_sleep_1, bind, count_sleep, deliver_signal.
  destruct (signal c) as [at_ |]; [| reflexivity].
  destruct (Nat.eqb at_ (S k)); reflexivity.
Qed.

Lemma wait_loop_step (c : cycle) (k r : nat) (st : state) :
  running st = true ->
  wait_loop c k (S r) st = wait_loop c (S k) r (snd (time_sleep_1 c k st)).
Proof.
  intros Hon. cbn [wait_loop]. unfold bind at 1. unfold get_running.
  rewrite Hon. cbn [negb]. unfold bind. rewrite time_sleep_1_eq. reflexivity.
Qed.

(** With the flag down the wait is left at once, without a sleep. *)
Lemma wait_loop_flag_down (c : cycle) (k n : nat) (st : state) :
  running st = false -> wait_loop c k n st = (Ok tt, st).
Proof.
  intros Hoff. destruct n as [| r]; [reflexivity |].
  cbn [wait_loop]. unfold bind, get_running. rewrite Hoff. reflexivity.
Qed.

(** A signal during the [j]-th sleep: that sleep is the last one. *)
Lemma wait_loop_signal (c : cycle) (j : nat) (n : nat) :
  forall k st,
    running st = true ->
    signal c = Some (S j) ->
    (k <= j < k + n)%nat ->
    exists st',
      wait_loop c k n st = (Ok tt, st')
      /\ slept st' = (slept st + (j - k + 1))%nat
      /\ running st' = false
      /\ client st' = client st
      /\ fetched st' = fetched st.
Proof.
  induction n as [| r IH]; intros k st Hon Hsig Hj; [lia |].
  rewrite (wait_loop_step c k r st Hon), time_sleep_1_eq, Hsig.
  cbn [snd]. destruct (Nat.eqb_spec (S j) (S k)) as [Heq | Hne].
  - rewrite wait_loop_flag_down by reflexivity.
    eexists. split; [reflexivity |]. simpl. repeat split. lia.
  - destruct (IH (S k) (one_more_sleep st)) as (st' & Hw & Hs & Hr & Hc & Hf);
      [exact Hon | exact Hsig | lia |].
    exists st'. split; [exact Hw |]. simpl in Hs. repeat split; auto. lia.
Qed.

(** No signal during the wait: [n] sleeps, and the flag stays up. *)
Lemma wait_loop_quiet (c : cycle) (n : nat) :
  forall k st,
    running st = true ->
    (forall j, signal c = Some (S j) -> (j < k \/ k + n <= j)%nat) ->
    exists st',
      wait_loop c k n st = (Ok tt, st')
      /\ slept st' = (slept st + n)%nat
      /\ running st' = true
      /\ log st' = log st
      /\ client st' = client st
      /\ fetched st' = fetched st.
Proof.
  induction n as [| r IH]; intros k st Hon Hsig.
  - exists st. simpl. unfold ret. repeat split; auto.
  - rewrite (wait_loop_step c k r st Hon), time_sleep_1_eq. cbn [snd].
    assert (Hstep : match signal c with
                    | Some at_ =>
                        if Nat.eqb at_ (S k)
                        then with_running false
                               (logged [(INFO, ReceivedSignal)] (one_more_sleep st))
                        else one_more_sleep st
                    | None => one_more_sleep st
                    end = one_more_sleep st).
    { destruct (signal c) as [at_ |] eqn:Hs; [| reflexivity].
      destruct (Nat.eqb_spec at_ (S k)) as [-> | _]; [| reflexivity].
      destruct (Hsig k eq_refl); lia. }
    rewrite Hstep.
    destruct (IH (S k) (one_more_sleep st)) as (st' & Hw & Hs & Hr & Hl & Hc & Hf);
      [exact Hon | intros j Hj; destruct (Hsig j Hj); lia |].
    exists st'. split; [exact Hw |]. simpl in Hs. repeat split; auto. lia.
Qed.

(** The wait never raises, and only sleeps and handles a signal. *)
Lemma wait_loop_total (c : cycle) (n : nat) :
  forall k st,
  exists st',
    wait_loop c k n st = (Ok tt, st')
    /\ client st' = client st /\ fetched st' = fetched st.
Proof.
  induction n as [| r IH]; intros k st.
  - exists st. simpl. unfold ret. auto.
  - destruct (running st) eqn:Hon.
    + rewrite (wait_loop_step c k r st Hon), time_sleep_1_eq. cbn [snd].
      match goal with
      | |- context [wait_loop c (S k) r ?s] =>
          destruct (IH (S k) s) as (st' & Hw & Hc & Hf);
          assert (Hcs : client s = client st /\ fetched s = fetched st)
      end.
      { destruct (signal c) as [at_ |]; [destruct (Nat.eqb at_ (S k)) |]; auto. }
      exists st'. split; [exact Hw |]. destruct Hcs. split; congruence.
    + rewrite wait_loop_flag_down by exact Hon. eauto.
Qed.


(** C8.  The wait is a run of [time.sleep(1)] calls with the flag read before
    each of them.  With the flag already down no sleep is made; when the
    signal handler runs during the [j]-th sleep, that sleep is the last one,
    whatever the number of sleeps still due; without a signal the wait is
    [polling_interval] sleeps long. *)
Theorem wait_leaves_within_one_sleep (c : cycle) (interval : Z) (st : state) :
  (running st = false ->
   wait_loop c 0 (Z.to_nat interval) st = (Ok tt, st))
  /\ (forall j,
         running st = true ->
         signal c = Some (S j) ->
         (j < Z.to_nat interval)%nat ->
         exists st',
           wait_loop c 0 (Z.to_nat interval) st = (Ok tt, st')
           /\ running st' = false
           /\ slept st' = (slept st + j + 1)%nat)
  /\ (running st = true ->
      (forall j, signal c = Some (S j) -> (Z.to_nat interval <= j)%nat) ->
      exists st',
        wait_loop c 0 (Z.to_nat interval) st = (Ok tt, st')
        /\ running st' = true
        /\ slept st' = (slept st + Z.to_nat interval)%nat).
Proof.
  split; [apply wait_loop_flag_down |]. split.
  - intros j Hon Hsig Hj.
    destruct (wait_loop_signal c j (Z.to_nat interval) 0%nat st Hon Hsig)
      as (st' & Hw & Hs & Hr & _); [lia |].
    exists st'. repeat split; auto. lia.
  - intros Hon Hsig.
    destruct (wait_loop_quiet c (Z.to_nat interval) 0%nat st Hon)
      as (st' & Hw & Hs & Hr & _).
    + intros j Hj. right. apply Hsig in Hj. lia.
    + exists st'. auto.
Qed.

Lemma wait_leaves_within_one_sleep_witness :
  exists st',
    wait_loop {| response := HttpJson JNull; signal := Some 3%nat |} 0 (Z.to_nat 3600)
              {| running := true; log := []; client := []; fetched := 1; slept := 0 |}
    = (Ok tt, st')
    /\ running st' = false
    /\ slept st' = 3%nat.
Proof.
  apply (proj1 (proj2 (wait_leaves_within_one_sleep
                         {| response := HttpJson JNull; signal := Some 3%nat |} 3600
                         {| running := true; log := []; client := [];
                            fetched := 1; slept := 0 |})) 2%nat).
  - reflexivity.
  - reflexivity.
  - lia.
Defined.

(** ** One cycle, the loop and the shutdown *)

Section Scheduler.

Context {T : PyText}.
Variable broker : nat -> message -> pub_outcome.
Variable self : settings.

Lemma publish_metrics_eq (data : json) (st st' : state)
      (pv : list (string * json)) :
  publish_loop broker self data topic_mappings [] st = (Ok pv, st') ->
  _publish_metrics broker self data st = (Ok JNull, logged [summary_entry pv] st').
Proof.
  intros H. unfold _publish_metrics. unfold bind at 1. rewrite H.
  destruct pv; reflexivity.
Qed.

Lemma publish_metrics_total (data : json) (st : state) :
  exists st', _publish_metrics broker self data st = (Ok JNull, st').
Proof.
  destruct (publish_loop_effects broker self data topic_mappings [] st)
    as (pv & l & c & H & _).
  eexists. apply (publish_metrics_eq data st _ pv H).
Qed.

Lemma deliver_signal_eq (c : cycle) (now : nat) (st : state) :
  deliver_signal c now st
  = (Ok tt,
     match signal c with
     | Some at_ =>
         if Nat.eqb at_ now
         then with_running false (logged [(INFO, ReceivedSignal)] st)
         else st
     | None => st
     end).
Proof.
  unfold deliver_signal. destruct (signal c) as [at_ |]; [| reflexivity].
  destruct (Nat.eqb at_ now); reflexivity.
Qed.

Lemma cycle_body_eq (c : cycle) (st : state) :
  cycle_body broker self c st
  = match _fetch_econet_data (response c) (at_fetch c st) with
    | (Ok data, st1) =>
        match (if truthy data
               then bind (_publish_metrics broker self data) (fun _ => ret tt)
               else logger ERROR NoData) st1 with
        | (Ok _, st2) => wait_loop c 0 (Z.to_nat (polling_interval self)) st2
        | (Raise e, st2) => (Raise e, st2)
        end
    | (Raise e, st1) => (Raise e, st1)
    end.
Proof.
  unfold cycle_body, at_fetch. unfold bind at 1. unfold logger at 1.
  unfold bind at 1. unfold bind at 1. rewrite deliver_signal_eq. cbn [snd].
  destruct (_fetch_econet_data _ _) as [[data | e] st1]; [| reflexivity].
  unfold bind at 1.
  match goal with
  | |- context [(if truthy data then ?a else ?b) st1] =>
      destruct ((if truthy data then a else b) st1) as [[u | e] st2]
  end; reflexivity.
Qed.

Lemma fetch_eq (h : http_result) (st : state) :
  _fetch_econet_data h st
  = match h with
    | HttpJson doc => (Ok doc, one_more_fetch st)
    | HttpRequestException | HttpJSONDecodeError => (Raise TypeError, one_more_fetch st)
    | HttpOtherError => (Raise OtherError, one_more_fetch st)
    end.
Proof. destruct h; reflexivity. Qed.

(** A cycle whose fetch returns a document does not raise. *)
Lemma cycle_body_ok (c : cycle) (data : json) (st : state) :
  response c = HttpJson data ->
  exists st', cycle_body broker self c st = (Ok tt, st').
Proof.
  intros Hresp. rewrite cycle_body_eq, Hresp, fetch_eq.
  destruct (truthy data).
  - unfold bind at 1.
    destruct (publish_metrics_total data (one_more_fetch (at_fetch c st)))
      as (st2 & Hpub).
    rewrite Hpub. unfold ret.
    destruct (wait_loop_total c (Z.to_nat (polling_interval self)) 0%nat st2)
      as (st' & Hw & _).
    exists st'. exact Hw.
  - unfold logger.
    match goal with
    | |- context [wait_loop c 0 ?n ?s] =>
        destruct (wait_loop_total c n 0%nat s) as (st' & Hw & _)
    end.
    exists st'. exact Hw.
Qed.

(** A cycle only raises out of its fetch, and what it raises is an
    [Exception]. *)
Lemma cycle_body_raises (c : cycle) (e : exn) (st st' : state) :
  cycle_body broker self c st = (Raise e, st') ->
  is_Exception e = true
  /\ st' = one_more_fetch (at_fetch c st)
  /\ ((response c = HttpOtherError /\ e = OtherError)
      \/ ((response c = HttpRequestException \/ response c = HttpJSONDecodeError)
          /\ e = TypeError)).
Proof.
  intros H. destruct (response c) as [data | | |] eqn:Hresp.
  - destruct (cycle_body_ok c data st Hresp) as (st'' & Hok). congruence.
  - rewrite cycle_body_eq, Hresp, fetch_eq in H. inversion H.
    split; [reflexivity | split; [reflexivity | right; auto]].
  - rewrite cycle_body_eq, Hresp, fetch_eq in H. inversion H.
    split; [reflexivity | split; [reflexivity | right; auto]].
  - rewrite cycle_body_eq, Hresp, fetch_eq in H. inversion H.
    split; [reflexivity | split; [reflexivity | left; auto]].
Qed.

Lemma disconnect_mqtt_eq (st : state) :
  disconnect_mqtt broker self st
  = (Ok tt, called [LoopStop; Disconnect]
              (after_publish broker (offline_message self) AvailabilityOfflineFailed st)).
Proof.
  unfold disconnect_mqtt, after_publish, bind, try_except, mqtt_publish,
    client_call_, logger, ret.
  fold (offline_message self).
  destruct (broker (List.length (client st)) (offline_message self));
    cbn [is_Exception]; rewrite (called_called [LoopStop] [Disconnect]);
    reflexivity.
Qed.

Lemma on_connect_eq (st : state) :
  _on_mqtt_connect broker self 0 st
  = (Ok tt, after_publish broker (online_message self) AvailabilityOnlineFailed
              (logged [(INFO, ConnectedToBroker)] st)).
Proof.
  unfold _on_mqtt_connect, after_publish, bind, try_except, mqtt_publish.
  fold (online_message self). cbn.
  destruct (broker (List.length (client st)) (online_message self)); reflexivity.
Qed.

Lemma shutdown_eq (st : state) :
  shutdown broker self st
  = (Ok tt, logged [(INFO, ShutdownComplete)]
              (called [LoopStop; Disconnect]
                 (after_publish broker (offline_message self) AvailabilityOfflineFailed
                    (logged [(INFO, ShuttingDown)] st)))).
Proof.
  unfold shutdown. unfold bind at 1. unfold logger at 1.
  unfold bind at 1. rewrite disconnect_mqtt_eq. reflexivity.
Qed.

Lemma client_after_publish (m : message) (failed : exn -> log_msg) (st : state) :
  client (after_publish broker m failed st)
  = (client st ++ [Publish m (broker (List.length (client st)) m)])%list.
Proof.
  unfold after_publish.
  destruct (broker (List.length (client st)) m); reflexivity.
Qed.

Lemma poll_loop_flag_down (schedule : list cycle) (st : state) :
  running st = false ->
  poll_loop broker self schedule st = (Ok LoopLeft, st).
Proof.
  intros Hoff. destruct schedule; cbn [poll_loop]; unfold bind, get_running;
    rewrite Hoff; reflexivity.
Qed.

Lemma poll_loop_step (c : cycle) (rest : list cycle) (st : state) :
  running st = true ->
  poll_loop broker self (c :: rest) st
  = match cycle_body broker self c st with
    | (Ok _, st') => poll_loop broker self rest st'
    | (Raise e, st') => (Raise e, st')
    end.
Proof.
  intros Hon. cbn [poll_loop]. unfold bind at 1. unfold get_running.
  rewrite Hon. cbn [negb]. unfold bind at 1. reflexivity.
Qed.

(** Leaving the loop by the flag: the [finally] clause runs. *)
Lemma main_loop_flag_down (schedule : list cycle) (st : state) :
  running st = false ->
  main_loop broker self schedule st
  = (Ok LoopLeft, snd (shutdown broker self st)).
Proof.
  intros Hoff. unfold main_loop. rewrite (poll_loop_flag_down schedule st Hoff).
  unfold try_finally, try_except, lift. rewrite shutdown_eq. reflexivity.
Qed.

(** Leaving the loop by an exception: [except], then [finally]. *)
Lemma main_loop_raise (schedule : list cycle) (st st' : state) (e : exn) :
  poll_loop broker self schedule st = (Raise e, st') ->
  is_Exception e = true ->
  main_loop broker self schedule st
  = (Ok LoopLeft,
     snd (shutdown broker self (logged [(ERROR, UnexpectedError e)] st'))).
Proof.
  intros Hloop Hexc. unfold main_loop. rewrite Hloop.
  unfold try_finally, try_except, lift. rewrite Hexc.
  unfold bind, logger, ret. rewrite shutdown_eq. reflexivity.
Qed.

Lemma fetched_after_shutdown (st : state) :
  fetched (snd (shutdown broker self st)) = fetched st
  /\ running (snd (shutdown broker self st)) = running st.
Proof.
  rewrite shutdown_eq. unfold after_publish. cbn [snd].
  destruct (broker _ _); split; reflexivity.
Qed.


Lemma ok_pair_inv {A : Type} (a b : A) (s t : state) :
  (Ok a, s) = (Ok b, t) -> a = b /\ s = t.
Proof. intros H. split; congruence. Qed.

(** ** The sweep, metric by metric *)

(** C4 (amended).  [_publish_metrics] takes every metric of the table in table
    order and never aborts: a metric whose value is [None] leaves a warning
    and nothing else; a metric whose value is present is published with its
    payload, and is entered in [published_values] when the broker accepts
    it, or else leaves an error entry and is not entered.  The method then
    logs one closing entry, a warning when nothing was published, and
    returns [None]: [published_values] is only logged and the metrics passed
    over are only in the log.  The cycle goes on to its wait whatever was
    published. *)
Theorem publish_sweep_outcomes (data : json) (st : state) :
  exists pvF stF,
    publish_loop broker self data topic_mappings [] st = (Ok pvF, stF)
    /\ _publish_metrics broker self data st
       = (Ok JNull, logged [summary_entry pvF] stF)
    /\ (pvF = [] -> summary_entry pvF = (WARNING, NoValuesPublished))
    /\ (forall pre name p post,
           topic_mappings = (pre ++ (name, p) :: post)%list ->
           exists pv0 st0 pv1 st1,
             publish_loop broker self data pre [] st = (Ok pv0, st0)
             /\ publish_one broker self data pv0 (name, p) st0 = (Ok pv1, st1)
             /\ publish_loop broker self data post pv1 st1 = (Ok pvF, stF)
             /\ (_get_nested_value data p = Ok JNull ->
                 st1 = logged [(WARNING, CouldNotFind name p)] st0
                 /\ Py.dict_get name pvF = None)
             /\ (forall v,
                    _get_nested_value data p = Ok v ->
                    v <> JNull ->
                    let m := metric_message self name v in
                    let out := broker (List.length (client st0)) m in
                    (out = PubRc 0 ->
                     st1 = called [Publish m out] st0
                     /\ Py.dict_get name pvF = Some (JStr (payload m)))
                    /\ (out <> PubRc 0 ->
                        st1 = logged [(ERROR,
                                       match out with
                                       | PubRc rc => PublishFailed name rc
                                       | PubRaise => PublishError name ValueError
                                       end)]
                                     (called [Publish m out] st0)
                        /\ Py.dict_get name pvF = None)))
    /\ (forall c st0,
           response c = HttpJson data ->
           exists st', cycle_body broker self c st0 = (Ok tt, st')).
Proof.
  destruct (publish_loop_effects broker self data topic_mappings [] st)
    as (pvF & lF & cF & HF & _).
  exists pvF, (logged lF (called cF st)).
  split; [exact HF |]. split; [apply publish_metrics_eq; exact HF |].
  split; [intros ->; reflexivity |]. split.
  - intros pre name p post Heq.
    destruct (split_names_unique pre post name p Heq) as (Hpre & Hpost).
    destruct (publish_loop_split broker self data pre post name p [] st Hpre Hpost)
      as (pv0 & l0 & c0 & pv1 & l1 & c1 & pv2 & l2 & c2 & H).
    cbv zeta in H.
    destruct H as (H0 & H1 & H2 & Hall & _ & _ & _ & Hk0 & Hk2).
    rewrite <- Heq in Hall. rewrite HF in Hall.
    assert (HpvF : pvF = pv2) by congruence.
    assert (HstF : logged lF (called cF st)
                   = logged l2 (called c2 (logged l1 (called c1
                                  (logged l0 (called c0 st))))))
      by congruence.
    rewrite HstF. subst pvF.
    exists pv0, (logged l0 (called c0 st)), pv1,
           (logged l1 (called c1 (logged l0 (called c0 st)))).
    split; [exact H0 |]. split; [exact H1 |]. split; [exact H2 |].
    simpl in Hk0. split.
    + intros Hnull. rewrite (publish_one_absent broker self data pv0 name p _ Hnull) in H1.
      destruct (ok_pair_inv _ _ _ _ H1) as [Hpv Hst]. split; [symmetry; exact Hst |].
      rewrite Hk2, <- Hpv. exact Hk0.
    + intros v Hv Hnn m out.
      rewrite (publish_one_present broker self data pv0 name p v _ Hv Hnn) in H1.
      fold m in H1. fold out in H1. split.
      * intros Hout. rewrite Hout in H1. cbn in H1.
        destruct (ok_pair_inv _ _ _ _ H1) as [Hpv Hst]. rewrite Hout.
        split; [symmetry; exact Hst |].
        rewrite Hk2, <- Hpv. apply dict_get_set_same.
      * intros Hout. destruct out as [rc |] eqn:Eout.
        -- destruct (Z.eqb_spec rc 0) as [-> | Hrc]; [congruence |].
           destruct (ok_pair_inv _ _ _ _ H1) as [Hpv Hst]. split; [symmetry; exact Hst |].
           rewrite Hk2, <- Hpv. exact Hk0.
        -- destruct (ok_pair_inv _ _ _ _ H1) as [Hpv Hst]. split; [symmetry; exact Hst |].
           rewrite Hk2, <- Hpv. exact Hk0.
  - intros c st0 Hresp. apply (cycle_body_ok c data st0 Hresp).
Qed.

(** A loop over metrics of other names leaves no missing-value warning for
    [name]. *)
Lemma no_warning_for_other_names (data : json) (table : list (string * path))
      (l : list (levelname * log_msg)) (name : string) (p : path) :
  ~ In name (map fst table) ->
  Forall (sweep_entry data table) l ->
  ~ In (WARNING, CouldNotFind name p) l.
Proof.
  intros Hnotin Hall Hin. rewrite Forall_forall in Hall.
  destruct (Hall _ Hin) as (n & q & Hnq & [[_ He] | [[rc [_ He]] | He]]);
    try discriminate.
  inversion He; subst. apply Hnotin. apply (in_map fst) in Hnq. exact Hnq.
Qed.

(** C9.  When the loop over the path ends at an empty list,
    [_get_nested_value] returns that list, neither [None] nor an element.
    The metric then counts as present: its turn of the loop makes one publish
    call with the payload ["[]"], and for a metric of the table the sweep of
    [_publish_metrics] makes that call on the metric's topic, logs no
    missing-value warning for it, and enters it in [published_values] with
    the payload ["[]"] when the broker takes the message. *)
Theorem empty_array_is_published (data : json) (name : string) (p : path)
        (pv : list (string * json)) (st : state) :
  walk data p = Ok (Some (JArr [])) ->
  _get_nested_value data p = Ok (JArr [])
  /\ (exists pv' st',
         publish_one broker self data pv (name, p) st = (Ok pv', st')
         /\ client st'
            = (client st
                 ++ [Publish {| topic := mqtt_topic_prefix self ++ name;
                                payload := "[]"; retain := false |}
                             (broker (List.length (client st))
                                     {| topic := mqtt_topic_prefix self ++ name;
                                        payload := "[]"; retain := false |})])%list
         /\ (broker (List.length (client st))
                    {| topic := mqtt_topic_prefix self ++ name;
                       payload := "[]"; retain := false |} = PubRc 0 ->
             Py.dict_get name pv' = Some (JStr "[]")))
  /\ (In (name, p) topic_mappings ->
      exists pvF l c n,
        publish_loop broker self data topic_mappings [] st
        = (Ok pvF, logged l (called c st))
        /\ _publish_metrics broker self data st
           = (Ok JNull, logged (l ++ [summary_entry pvF]) (called c st))
        /\ In (Publish {| topic := mqtt_topic_prefix self ++ name;
                          payload := "[]"; retain := false |}
                       (broker n {| topic := mqtt_topic_prefix self ++ name;
                                    payload := "[]"; retain := false |})) c
        /\ ~ In (WARNING, CouldNotFind name p) l
        /\ (broker n {| topic := mqtt_topic_prefix self ++ name;
                        payload := "[]"; retain := false |} = PubRc 0 ->
            Py.dict_get name pvF = Some (JStr "[]")
            /\ summary_entry pvF = (INFO, PublishedValues pvF))).
Proof.
  intros Hwalk.
  assert (Hv : _get_nested_value data p = Ok (JArr [])).
  { unfold _get_nested_value, get_nested_body. rewrite Hwalk. reflexivity. }
  split; [exact Hv |].
  assert (Hpay : payload_of name (JArr []) = "[]").
  { unfold payload_of. destruct (String.eqb name "three_way_valve_state");
      reflexivity. }
  assert (Hmsg : metric_message self name (JArr [])
                 = {| topic := mqtt_topic_prefix self ++ name;
                      payload := "[]"; retain := false |}).
  { unfold metric_message. rewrite Hpay. reflexivity. }
  assert (Hone : forall pv0 st0,
             publish_one broker self data pv0 (name, p) st0
             = match broker (List.length (client st0))
                            {| topic := mqtt_topic_prefix self ++ name;
                               payload := "[]"; retain := false |} with
               | PubRc rc =>
                   if rc =? 0
                   then (Ok (Py.dict_set name (JStr "[]") pv0),
                         called [Publish {| topic := mqtt_topic_prefix self ++ name;
                                            payload := "[]"; retain := false |}
                                         (PubRc rc)] st0)
                   else (Ok pv0,
                         logged [(ERROR, PublishFailed name rc)]
                           (called [Publish {| topic := mqtt_topic_prefix self ++ name;
                                               payload := "[]"; retain := false |}
                                            (PubRc rc)] st0))
               | PubRaise =>
                   (Ok pv0,
                    logged [(ERROR, PublishError name ValueError)]
                      (called [Publish {| topic := mqtt_topic_prefix self ++ name;
                                          payload := "[]"; retain := false |}
                                       PubRaise] st0))
               end).
  { intros pv0 st0.
    rewrite (publish_one_present broker self data pv0 name p (JArr []) st0 Hv)
      by discriminate.
    rewrite Hmsg, Hpay. reflexivity. }
  split.
  - rewrite Hone.
    destruct (broker _ _) as [rc |] eqn:Hout.
    + destruct (Z.eqb_spec rc 0) as [-> | Hrc].
      * eexists _, _. split; [reflexivity |]. split; [reflexivity |].
        intros _. apply dict_get_set_same.
      * eexists _, _. split; [reflexivity |]. split; [reflexivity |].
        intros H. inversion H. contradiction.
    + eexists _, _. split; [reflexivity |]. split; [reflexivity |].
      intros H. discriminate.
  - intros Hin.
    destruct (in_table_split name p Hin) as (pre & post & Heq & Hpre & Hpost).
    destruct (publish_loop_effects broker self data pre [] st)
      as (pv0 & l0 & c0 & H0 & _ & Hl0 & Hk0).
    specialize (Hone pv0 (logged l0 (called c0 st))).
    remember (broker (List.length (client (logged l0 (called c0 st))))
                     {| topic := mqtt_topic_prefix self ++ name;
                        payload := "[]"; retain := false |}) as out eqn:Hout.
    assert (Hturn : exists pv1 l1,
               publish_one broker self data pv0 (name, p)
                           (logged l0 (called c0 st))
               = (Ok pv1,
                  logged l1
                    (called [Publish {| topic := mqtt_topic_prefix self ++ name;
                                        payload := "[]"; retain := false |} out]
                            (logged l0 (called c0 st))))
               /\ ~ In (WARNING, CouldNotFind name p) l1
               /\ (out = PubRc 0 -> Py.dict_get name pv1 = Some (JStr "[]"))).
    { rewrite Hone. destruct out as [rc |].
      - destruct (Z.eqb_spec rc 0) as [-> | Hrc].
        + eexists _, []. rewrite logged_nil. split; [reflexivity |].
          split; [intros [] |]. intros _. apply dict_get_set_same.
        + eexists _, _. split; [reflexivity |].
          split; [intros [H | []]; discriminate |].
          intros H. inversion H. contradiction.
      - eexists _, _. split; [reflexivity |].
        split; [intros [H | []]; discriminate |]. intros H. discriminate. }
    destruct Hturn as (pv1 & l1 & H1 & Hl1 & Hacc).
    match type of H1 with
    | _ = (_, ?s1) =>
        destruct (publish_loop_effects broker self data post pv1 s1)
          as (pv2 & l2 & c2 & H2 & _ & Hl2 & Hk2)
    end.
    assert (Hall : publish_loop broker self data topic_mappings [] st
                   = (Ok pv2,
                      logged (l0 ++ l1 ++ l2)
                        (called (c0 ++ [Publish
                                          {| topic := mqtt_topic_prefix self ++ name;
                                             payload := "[]"; retain := false |}
                                          out] ++ c2) st))).
    { rewrite Heq.
      rewrite (publish_loop_app broker self data pre ((name, p) :: post) [] st
                                _ _ H0).
      cbn [publish_loop]. unfold bind at 1. rewrite H1, H2.
      rewrite !called_logged, !called_called, !logged_logged.
      rewrite <- ?app_assoc. reflexivity. }
    exists pv2, (l0 ++ l1 ++ l2)%list,
           (c0 ++ [Publish {| topic := mqtt_topic_prefix self ++ name;
                              payload := "[]"; retain := false |} out] ++ c2)%list,
           (List.length (client (logged l0 (called c0 st)))).
    rewrite <- Hout.
    split; [exact Hall |]. split; [| split; [| split]].
    + rewrite (publish_metrics_eq data st _ pv2 Hall).
      rewrite logged_logged. reflexivity.
    + apply in_or_app. right. left. reflexivity.
    + intros Hw. apply in_app_or in Hw. destruct Hw as [Hw | Hw].
      * apply (no_warning_for_other_names data pre l0 name p Hpre Hl0 Hw).
      * apply in_app_or in Hw. destruct Hw as [Hw | Hw]; [exact (Hl1 Hw) |].
        apply (no_warning_for_other_names data post l2 name p Hpost Hl2 Hw).
    + intros Hok.
      assert (Hget : Py.dict_get name pv2 = Some (JStr "[]")).
      { rewrite (Hk2 name Hpost). apply Hacc. exact Hok. }
      split; [exact Hget |].
      destruct pv2; [discriminate | reflexivity].
Qed.

(** C10.  When the value a metric's path addresses is [null],
    [_get_nested_value] returns [None], as it does for a missing key.  The
    sweep then leaves the warning of an absent value for that metric, makes
    no publish call on its topic, and does not enter it in
    [published_values]. *)
Theorem null_value_is_skipped (data : json) (name : string) (p : path)
        (st : state) :
  In (name, p) topic_mappings ->
  Spec.addressed data p = Some JNull ->
  _get_nested_value data p = Ok JNull
  /\ (forall pv st0,
         publish_one broker self data pv (name, p) st0
         = (Ok pv, logged [(WARNING, CouldNotFind name p)] st0))
  /\ exists pvF l c,
      publish_loop broker self data topic_mappings [] st
      = (Ok pvF, logged l (called c st))
      /\ Py.dict_get name pvF = None
      /\ In (WARNING, CouldNotFind name p) l
      /\ (forall m out,
             In (Publish m out) c -> topic m <> mqtt_topic_prefix self ++ name).
Proof.
  intros Hin Hnull.
  assert (Hv : _get_nested_value data p = Ok JNull).
  { unfold _get_nested_value, get_nested_body.
    rewrite (walk_addressed p data JNull Hnull). reflexivity. }
  split; [exact Hv |]. split.
  - intros pv st0. apply publish_one_absent. exact Hv.
  - destruct (in_table_split name p Hin) as (pre & post & Heq & Hpre & Hpost).
    destruct (publish_loop_split broker self data pre post name p [] st Hpre Hpost)
      as (pv0 & l0 & c0 & pv1 & l1 & c1 & pv2 & l2 & c2 & H).
    cbv zeta in H.
    destruct H as (H0 & H1 & H2 & Hall & Hst & Hc0 & Hc2 & Hk0 & Hk2).
    rewrite (publish_one_absent broker self data pv0 name p _ Hv) in H1.
    destruct (ok_pair_inv _ _ _ _ H1) as [Hpv Hst1].
    assert (Hl1 : l1 = [(WARNING, CouldNotFind name p)] /\ c1 = []).
    { pose proof (f_equal log Hst1) as Hlog.
      pose proof (f_equal client Hst1) as Hcl.
      simpl in Hlog, Hcl. apply app_inv_head in Hlog.
      rewrite <- (app_nil_r (client st ++ c0)) in Hcl at 1.
      apply app_inv_head in Hcl. auto. }
    destruct Hl1 as (-> & ->).
    exists pv2, (l0 ++ [(WARNING, CouldNotFind name p)] ++ l2)%list,
           (c0 ++ [] ++ c2)%list.
    rewrite <- Heq in Hall. split; [rewrite Hall, Hst; reflexivity |].
    split; [rewrite Hk2, <- Hpv; exact Hk0 |]. split.
    + rewrite in_app_iff. right. left. reflexivity.
    + intros m out Hm. simpl in Hm. rewrite in_app_iff in Hm.
      assert (Hcall : sweep_call self data topic_mappings (Publish m out)).
      { rewrite Forall_forall in Hc0, Hc2. rewrite Heq.
        destruct Hm as [Hm | Hm].
        - apply (sweep_call_weaken self data pre); [| apply Hc0; exact Hm].
          intros e He. apply in_or_app. left. exact He.
        - apply (sweep_call_weaken self data post); [| apply Hc2; exact Hm].
          intros e He. apply in_or_app. right. right. exact He. }
      apply (sweep_call_other_topic self data name p (Publish m out) m out Hin Hv
                                    Hcall eq_refl).
Qed.

(** ** Availability *)

Lemma retained_on_app (t : string) (a b : list client_call) :
  forall held,
    retained_on t (a ++ b) held = retained_on t b (retained_on t a held).
Proof.
  induction a as [| c a IH]; intros held; simpl; [reflexivity | apply IH].
Qed.

Lemma last_will_app (a b : list client_call) :
  forall w, last_will (a ++ b) w = last_will b (last_will a w).
Proof.
  induction a as [| c a IH]; intros w; simpl; [reflexivity |].
  destruct c; apply IH.
Qed.

Lemma last_will_none_set (cs : list client_call) :
  forall w,
    forallb (fun c => negb (is_will c)) cs = true -> last_will cs w = w.
Proof.
  induction cs as [| c cs IH]; intros w H; simpl in *; [reflexivity |].
  apply andb_prop in H. destruct H as [Hc Hcs].
  destruct c; simpl in Hc; try discriminate; apply IH; exact Hcs.
Qed.

(** *** No method registers a will *)

Lemma rnw_ret {A} (a : A) : registers_no_will (ret a).
Proof. intros st. exists []. rewrite app_nil_r. auto. Qed.

Lemma rnw_raise {A} (e : exn) : registers_no_will (@raise A e).
Proof. intros st. exists []. rewrite app_nil_r. auto. Qed.

Lemma rnw_lift {A} (r : result A) : registers_no_will (lift r).
Proof. intros st. exists []. rewrite app_nil_r. auto. Qed.

Lemma rnw_logger (lvl : levelname) (msg : log_msg) :
  registers_no_will (logger lvl msg).
Proof. intros st. exists []. simpl. rewrite app_nil_r. auto. Qed.

Lemma rnw_get_running : registers_no_will get_running.
Proof. intros st. exists []. rewrite app_nil_r. auto. Qed.

Lemma rnw_set_running (b : bool) : registers_no_will (set_running b).
Proof. intros st. exists []. simpl. rewrite app_nil_r. auto. Qed.

Lemma rnw_count_fetch : registers_no_will count_fetch.
Proof. intros st. exists []. simpl. rewrite app_nil_r. auto. Qed.

Lemma rnw_count_sleep : registers_no_will count_sleep.
Proof. intros st. exists []. simpl. rewrite app_nil_r. auto. Qed.

Lemma rnw_client_call (c : client_call) :
  is_will c = false -> registers_no_will (client_call_ c).
Proof. intros H st. exists [c]. simpl. rewrite H. auto. Qed.

Lemma rnw_mqtt_publish (m : message) : registers_no_will (mqtt_publish broker m).
Proof.
  intros st. exists [Publish m (broker (List.length (client st)) m)].
  unfold mqtt_publish. destruct (broker _ _); simpl; auto.
Qed.

Lemma rnw_bind {A B} (m : M A) (k : A -> M B) :
  registers_no_will m ->
  (forall a, registers_no_will (k a)) ->
  registers_no_will (bind m k).
Proof.
  intros Hm Hk st. unfold bind.
  destruct (Hm st) as (cs1 & Hc1 & Hw1).
  destruct (m st) as [[a | e] st1]; simpl in Hc1.
  - destruct (Hk a st1) as (cs2 & Hc2 & Hw2).
    exists (cs1 ++ cs2)%list. rewrite Hc2, Hc1, app_assoc, forallb_app, Hw1, Hw2.
    auto.
  - exists cs1. auto.
Qed.

Lemma rnw_try_except {A} (body : M A) (handler : exn -> M A) :
  registers_no_will body ->
  (forall e, registers_no_will (handler e)) ->
  registers_no_will (try_except body handler).
Proof.
  intros Hb Hh st. unfold try_except.
  destruct (Hb st) as (cs1 & Hc1 & Hw1).
  destruct (body st) as [[a | e] st1]; simpl in Hc1.
  - exists cs1. auto.
  - destruct (is_Exception e).
    + destruct (Hh e st1) as (cs2 & Hc2 & Hw2).
      exists (cs1 ++ cs2)%list.
      rewrite Hc2, Hc1, app_assoc, forallb_app, Hw1, Hw2. auto.
    + exists cs1. auto.
Qed.

Lemma rnw_try_finally {A} (body : M A) (final : M unit) :
  registers_no_will body ->
  registers_no_will final ->
  registers_no_will (try_finally body final).
Proof.
  intros Hb Hf st. unfold try_finally.
  destruct (Hb st) as (cs1 & Hc1 & Hw1).
  destruct (body st) as [r st1]; simpl in Hc1.
  destruct (Hf st1) as (cs2 & Hc2 & Hw2).
  exists (cs1 ++ cs2)%list.
  destruct (final st1) as [[u | e] st2]; simpl in *;
    rewrite Hc2, Hc1, app_assoc, forallb_app, Hw1, Hw2; auto.
Qed.

Ltac no_will :=
  repeat first
    [ assumption
    | apply rnw_ret | apply rnw_raise | apply rnw_lift | apply rnw_logger
    | apply rnw_get_running | apply rnw_set_running | apply rnw_count_fetch
    | apply rnw_count_sleep | apply rnw_mqtt_publish
    | apply rnw_client_call; reflexivity
    | apply rnw_bind | apply rnw_try_except | apply rnw_try_finally
    | progress cbv beta
    | match goal with
      | |- forall _, _ => intro
      | |- registers_no_will (if ?b then _ else _) => destruct b
      | |- registers_no_will (match ?x with _ => _ end) => destruct x
      | |- registers_no_will (let (_, _) := ?x in _) => destruct x
      end ].

Lemma rnw_wait_loop (c : cycle) (n : nat) :
  forall k, registers_no_will (wait_loop c k n).
Proof.
  induction n as [| r IH]; intros k; cbn [wait_loop].
  - no_will.
  - unfold time_sleep_1, deliver_signal, _signal_handler.
    pose proof (IH (S k)). no_will.
Qed.

Lemma rnw_publish_loop (data : json) (table : list (string * path)) :
  forall pv, registers_no_will (publish_loop broker self data table pv).
Proof.
  induction table as [| entry rest IH]; intros pv; cbn [publish_loop].
  - no_will.
  - apply rnw_bind; [| intros a; apply IH].
    unfold publish_one. no_will.
Qed.

Lemma rnw_cycle_body (c : cycle) : registers_no_will (cycle_body broker self c).
Proof.
  unfold cycle_body, deliver_signal, _signal_handler, _fetch_econet_data,
    _publish_metrics, logger_error_kw.
  pose proof (rnw_wait_loop c (Z.to_nat (polling_interval self)) 0).
  pose proof (rnw_publish_loop).
  no_will; simpl; no_will.
Qed.

Lemma rnw_poll_loop (schedule : list cycle) :
  registers_no_will (poll_loop broker self schedule).
Proof.
  induction schedule as [| c rest IH]; cbn [poll_loop].
  - no_will.
  - pose proof (rnw_cycle_body c). no_will.
Qed.

Lemma rnw_shutdown : registers_no_will (shutdown broker self).
Proof. unfold shutdown, disconnect_mqtt. no_will. Qed.

Lemma rnw_main_loop (schedule : list cycle) :
  registers_no_will (main_loop broker self schedule).
Proof.
  intros st. unfold main_loop.
  destruct (rnw_poll_loop schedule st) as (cs1 & Hc1 & Hw1).
  destruct (poll_loop broker self schedule st) as [r st1]; simpl in Hc1.
  assert (Hfin : registers_no_will
                   (try_finally
                      (try_except (lift r)
                         (fun e => bind (logger ERROR (UnexpectedError e))
                                        (fun _ => ret LoopLeft)))
                      (shutdown broker self))).
  { pose proof rnw_shutdown. no_will. }
  destruct (Hfin st1) as (cs2 & Hc2 & Hw2).
  destruct r as [[|] | e].
  - exists (cs1 ++ cs2)%list.
    rewrite Hc2, Hc1, app_assoc, forallb_app, Hw1, Hw2. auto.
  - exists cs1. auto.
  - exists (cs1 ++ cs2)%list.
    rewrite Hc2, Hc1, app_assoc, forallb_app, Hw1, Hw2. auto.
Qed.

Lemma rnw_discover_all (table : list (string * list (string * json))) :
  registers_no_will (discover_all broker self table).
Proof.
  induction table as [| entry rest IH]; cbn [discover_all].
  - no_will.
  - unfold discover_one. no_will.
Qed.

Lemma rnw_run (conn : connect_result) (schedule : list cycle) :
  registers_no_will (run broker self conn schedule).
Proof.
  unfold run, connect_mqtt, _on_mqtt_connect, _publish_ha_discovery.
  pose proof (rnw_main_loop schedule).
  pose proof (rnw_discover_all ha_discovery_configs).
  no_will.
Qed.

Lemma retained_after_accepted (m : message) (cs : list client_call)
      (held : option string) (tail : list client_call) :
  retain m = true ->
  (forall c, In c tail -> accepted_on (topic m) c = None) ->
  retained_on (topic m) (cs ++ Publish m (PubRc 0) :: tail) held
  = Some (payload m).
Proof.
  intros Hret Htail. rewrite retained_on_app. simpl.
  rewrite Hret, String.eqb_refl. simpl.
  generalize (Some (payload m)). induction tail as [| c tail IH]; intros h.
  - reflexivity.
  - simpl. rewrite (Htail c (or_introl eq_refl)).
    apply IH. intros c' Hc'. apply Htail. right. exact Hc'.
Qed.

Lemma client_after_shutdown (st : state) :
  client (snd (shutdown broker self st))
  = (client st
       ++ [Publish (offline_message self)
                   (broker (List.length (client st)) (offline_message self));
           LoopStop; Disconnect])%list.
Proof.
  rewrite shutdown_eq. cbn [snd]. simpl. rewrite client_after_publish. simpl.
  rewrite <- app_assoc. reflexivity.
Qed.

(** A cycle whose fetch returns a document comes to its wait, having made
    one fetch and calls on the client only. *)
Lemma cycle_reaches_wait (c : cycle) (data : json) (st : state) :
  response c = HttpJson data ->
  exists l cs,
    cycle_body broker self c st
    = wait_loop c 0 (Z.to_nat (polling_interval self))
                (logged l (called cs (one_more_fetch (at_fetch c st)))).
Proof.
  intros Hresp. rewrite cycle_body_eq, Hresp, fetch_eq.
  destruct (truthy data).
  - destruct (publish_loop_effects broker self data topic_mappings []
                (one_more_fetch (at_fetch c st))) as (pv & l & cs & Hloop & _).
    exists (l ++ [summary_entry pv])%list, cs.
    unfold bind at 1. rewrite (publish_metrics_eq data _ _ pv Hloop).
    rewrite logged_logged. reflexivity.
  - exists [(ERROR, NoData)], []. rewrite called_nil. reflexivity.
Qed.

(** A signal that arrives within a cycle - while the fetch is in flight, or
    during one of the sleeps of the wait - is the end of the loop: the
    handler takes the flag down, the cycle is brought to its end, and no
    later cycle is run. *)
Lemma signalled_cycle_leaves_loop (c : cycle) (rest : list cycle) (data : json)
      (k : nat) (st : state) :
  running st = true ->
  response c = HttpJson data ->
  signal c = Some k ->
  (k <= Z.to_nat (polling_interval self))%nat ->
  exists st1,
    cycle_body broker self c st = (Ok tt, st1)
    /\ running st1 = false
    /\ fetched st1 = S (fetched st)
    /\ poll_loop broker self (c :: rest) st = (Ok LoopLeft, st1).
Proof.
  intros Hon Hresp Hsig Hk.
  destruct (cycle_reaches_wait c data st Hresp) as (l & cs & Hbody).
  assert (Hat : at_fetch c st
                = match k with
                  | O => with_running false
                           (logged [(INFO, ReceivedSignal)]
                                   (logged [(INFO, Polling)] st))
                  | S _ => logged [(INFO, Polling)] st
                  end).
  { unfold at_fetch. rewrite deliver_signal_eq, Hsig. cbn [snd].
    destruct k; reflexivity. }
  assert (Hend : exists st1,
             wait_loop c 0 (Z.to_nat (polling_interval self))
                       (logged l (called cs (one_more_fetch (at_fetch c st))))
             = (Ok tt, st1)
             /\ running st1 = false
             /\ fetched st1 = S (fetched st)).
  { destruct k as [| j].
    - eexists. split; [apply wait_loop_flag_down; rewrite Hat; reflexivity |].
      rewrite Hat. split; reflexivity.
    - destruct (wait_loop_signal c j (Z.to_nat (polling_interval self)) 0%nat
                  (logged l (called cs (one_more_fetch (at_fetch c st)))))
        as (st1 & Hw & _ & Hr & _ & Hf).
      + rewrite Hat. simpl. exact Hon.
      + exact Hsig.
      + lia.
      + exists st1. split; [exact Hw |]. split; [exact Hr |].
        rewrite Hf, Hat. reflexivity. }
  destruct Hend as (st1 & Hw & Hr & Hf).
  exists st1. rewrite Hbody. split; [exact Hw |]. split; [exact Hr |].
  split; [exact Hf |].
  rewrite (poll_loop_step c rest st Hon), Hbody, Hw.
  apply poll_loop_flag_down. exact Hr.
Qed.

(** C5.  After [__init__] the will on the availability topic is the retained
    ["offline"] and nothing has been published: the state is Offline.  A
    successful connect publishes the retained ["online"] on that topic, and
    the topic is Online once the broker has taken it.  A shutdown request -
    the flag found down at the head of the loop, or a signal that arrives
    within a cycle, during the fetch or during any sleep of the wait - makes
    the loop be left after that cycle and, before [run] returns, the retained
    ["offline"] published on the same topic, followed by the disconnect.
    Whenever the client is lost during [run], with no call of its own, the
    broker's copy of the will makes the topic Offline. *)
Theorem availability_protocol (st : state) :
  (last_will (client (init_state self)) None = Some (offline_message self)
   /\ availability_of
        (retained_on (availability_topic self) (client (init_state self)) None)
      = Offline)
  /\ (exists st',
         _on_mqtt_connect broker self 0 st = (Ok tt, st')
         /\ client st'
            = (client st
                 ++ [Publish (online_message self)
                             (broker (List.length (client st))
                                     (online_message self))])%list
         /\ (broker (List.length (client st)) (online_message self) = PubRc 0 ->
             forall held,
               availability_of
                 (retained_on (availability_topic self) (client st') held)
               = Online))
  /\ (forall rc,
         rc <> 0 ->
         exists st',
           _on_mqtt_connect broker self rc st = (Ok tt, st')
           /\ client st' = client st)
  /\ (running st = false ->
      forall schedule,
      exists st',
        main_loop broker self schedule st = (Ok LoopLeft, st')
        /\ client st'
           = (client st
                ++ [Publish (offline_message self)
                            (broker (List.length (client st))
                                    (offline_message self));
                    LoopStop; Disconnect])%list
        /\ (broker (List.length (client st)) (offline_message self) = PubRc 0 ->
            forall held,
              availability_of
                (retained_on (availability_topic self) (client st') held)
              = Offline))
  /\ (forall c rest data k,
         running st = true ->
         response c = HttpJson data ->
         signal c = Some k ->
         (k <= Z.to_nat (polling_interval self))%nat ->
         exists st1 st',
           cycle_body broker self c st = (Ok tt, st1)
           /\ main_loop broker self (c :: rest) st = (Ok LoopLeft, st')
           /\ fetched st' = S (fetched st)
           /\ client st'
              = (client st1
                   ++ [Publish (offline_message self)
                               (broker (List.length (client st1))
                                       (offline_message self));
                       LoopStop; Disconnect])%list
           /\ (broker (List.length (client st1)) (offline_message self) = PubRc 0 ->
               forall held,
                 availability_of
                   (retained_on (availability_topic self) (client st') held)
                 = Offline))
  /\ (forall conn schedule r st' held,
         run broker self conn schedule (init_state self) = (r, st') ->
         last_will (client st') None = Some (offline_message self)
         /\ availability_of
              (after_connection_lost (availability_topic self) (client st') held)
            = Offline).
Proof.
  split; [split; reflexivity |]. split; [| split; [| split; [| split]]].
  - eexists. split; [apply on_connect_eq |].
    rewrite client_after_publish. simpl. split; [reflexivity |].
    intros Hout held. rewrite Hout.
    pose proof (retained_after_accepted
                  (online_message self) (client st) held [] eq_refl
                  (fun c (H : In c []) => match H with end)) as Hr.
    cbn [topic payload online_message] in Hr. rewrite Hr. reflexivity.
  - intros rc Hrc. unfold _on_mqtt_connect.
    destruct (Z.eqb_spec rc 0) as [-> | _]; [congruence |].
    eexists. split; [reflexivity |]. reflexivity.
  - intros Hoff schedule. eexists.
    split; [apply (main_loop_flag_down schedule st Hoff) |].
    rewrite shutdown_eq. cbn [snd].
    assert (Hcl : client
                    (logged [(INFO, ShutdownComplete)]
                       (called [LoopStop; Disconnect]
                          (after_publish broker (offline_message self)
                             AvailabilityOfflineFailed
                             (logged [(INFO, ShuttingDown)] st))))
                  = (client st
                       ++ [Publish (offline_message self)
                                   (broker (List.length (client st))
                                           (offline_message self));
                           LoopStop; Disconnect])%list).
    { simpl. rewrite client_after_publish. simpl. rewrite <- app_assoc.
      reflexivity. }
    split; [exact Hcl |].
    intros Hout held. rewrite Hcl, Hout.
    assert (Htail : forall c,
               In c [LoopStop; Disconnect] ->
               accepted_on (topic (offline_message self)) c = None).
    { intros c [<- | [<- | []]]; reflexivity. }
    pose proof (retained_after_accepted
                  (offline_message self) (client st) held
                  [LoopStop; Disconnect] eq_refl Htail) as Hr.
    cbn [topic payload offline_message] in Hr. rewrite Hr. reflexivity.
  - intros c rest data k Hon Hresp Hsig Hk.
    destruct (signalled_cycle_leaves_loop c rest data k st Hon Hresp Hsig Hk)
      as (st1 & Hbody & Hr & Hf & Hloop).
    exists st1, (snd (shutdown broker self st1)).
    split; [exact Hbody |]. split; [| split; [| split]].
    + unfold main_loop. rewrite Hloop.
      unfold try_finally, try_except, lift. rewrite shutdown_eq. reflexivity.
    + rewrite (proj1 (fetched_after_shutdown st1)). exact Hf.
    + apply client_after_shutdown.
    + intros Hout held. rewrite client_after_shutdown, Hout.
      assert (Htail : forall c',
                 In c' [LoopStop; Disconnect] ->
                 accepted_on (topic (offline_message self)) c' = None).
      { intros c' [<- | [<- | []]]; reflexivity. }
      pose proof (retained_after_accepted
                    (offline_message self) (client st1) held
                    [LoopStop; Disconnect] eq_refl Htail) as Hret.
      cbn [topic payload offline_message] in Hret. rewrite Hret. reflexivity.
  - intros conn schedule r st' held Hrun.
    destruct (rnw_run conn schedule (init_state self)) as (cs & Hcs & Hw).
    rewrite Hrun in Hcs. simpl in Hcs.
    assert (Hwill : last_will (client st') None = Some (offline_message self)).
    { rewrite Hcs. simpl. apply last_will_none_set. exact Hw. }
    split; [exact Hwill |].
    unfold after_connection_lost. rewrite Hwill. simpl.
    rewrite String.eqb_refl. reflexivity.
Qed.

End Scheduler.

(** ** The properties at concrete inputs *)


(** The handlers of [_fetch_econet_data] pass [file=] to [logger.error],
    which raises [TypeError]: a failed request is not logged there and ends
    the loop like any other error. *)
Example fetch_failure_raises_type_error :
  fst (_fetch_econet_data HttpRequestException (init_state default_settings))
  = Raise TypeError
  /\ fst (_fetch_econet_data HttpJSONDecodeError (init_state default_settings))
     = Raise TypeError
  /\ fst (@main_loop plain_text willing_broker default_settings
                     [{| response := HttpRequestException; signal := None |};
                      cylinder_cycle]
                     (init_state default_settings))
     = Ok LoopLeft.
Proof. repeat split; vm_compute; reflexivity. Qed.


(** C4, as stated, fails: the sweep publishes the cylinder temperature and
    passes over the other metrics, and what the method returns is [None],
    not the two sets. *)
Lemma publish_metrics_returns_none_counterexample :
  fst (@_publish_metrics plain_text willing_broker default_settings
                         cylinder_document (init_state default_settings))
  = Ok JNull
  /\ In (INFO, PublishedValues [("dhw_temp", JStr "48")])
        (log (snd (@_publish_metrics plain_text willing_broker default_settings
                                     cylinder_document
                                     (init_state default_settings))))
  /\ In (WARNING, CouldNotFind "outdoor_temp" [SKey "curr"; SKey "TempWthr"])
        (log (snd (@_publish_metrics plain_text willing_broker default_settings
                                     cylinder_document
                                     (init_state default_settings)))).
Proof.
  split; [vm_compute; reflexivity |].
  split; vm_compute; auto 40.
Qed.

Lemma publish_sweep_outcomes_witness :
  exists pvF,
    fst (@publish_loop plain_text willing_broker default_settings
                       cylinder_document topic_mappings []
                       (init_state default_settings))
    = Ok pvF
    /\ Py.dict_get "dhw_temp" pvF = Some (JStr "48").
Proof.
  destruct (@publish_sweep_outcomes plain_text willing_broker default_settings
                                    cylinder_document
                                    (init_state default_settings))
    as (pvF & stF & Hloop & _ & _ & Hper & _).
  exists pvF. split; [rewrite Hloop; reflexivity |].
  destruct (Hper (firstn 11 topic_mappings) "dhw_temp"
                 [SKey "curr"; SKey "TempCWU"] (skipn 12 topic_mappings) eq_refl)
    as (pv0 & st0 & pv1 & st1 & _ & _ & _ & _ & Hpresent).
  destruct (Hpresent (JInt 48) eq_refl) as (Hacc & _); [discriminate |].
  destruct (Hacc eq_refl) as (_ & Hget). exact Hget.
Defined.

Lemma availability_protocol_witness :
  availability_of
    (after_connection_lost
       "econet/availability"
       (client (snd (@run plain_text willing_broker default_settings (Connack 0)
                          [cylinder_cycle] (init_state default_settings))))
       (Some "online"))
  = Offline
  /\ exists st1 st',
      @cycle_body plain_text willing_broker default_settings
                  {| response := HttpJson cylinder_document; signal := Some 3%nat |}
                  (init_state default_settings)
      = (Ok tt, st1)
      /\ @main_loop plain_text willing_broker default_settings
                    [{| response := HttpJson cylinder_document;
                        signal := Some 3%nat |};
                     cylinder_cycle]
                    (init_state default_settings)
         = (Ok LoopLeft, st')
      /\ fetched st' = 1%nat
      /\ availability_of (retained_on "econet/availability" (client st')
                                      (Some "online"))
         = Offline.
Proof.
  split.
  - exact (proj2 (proj2 (proj2 (proj2 (proj2 (proj2
             (@availability_protocol plain_text willing_broker default_settings
                                     (init_state default_settings))))))
                  (Connack 0) [cylinder_cycle] _ _ (Some "online")
                  (surjective_pairing _))).
  - destruct (proj1 (proj2 (proj2 (proj2 (proj2
                (@availability_protocol plain_text willing_broker
                                        default_settings
                                        (init_state default_settings))))))
                    {| response := HttpJson cylinder_document;
                       signal := Some 3%nat |}
                    [cylinder_cycle] cylinder_document 3%nat
                    eq_refl eq_refl eq_refl)
      as (st1 & st' & Hbody & Hmain & Hf & _ & Hoff).
    + simpl. lia.
    + exists st1, st'. split; [exact Hbody |]. split; [exact Hmain |].
      split; [exact Hf |]. exact (Hoff eq_refl (Some "online")).
Defined.

Lemma empty_array_is_published_witness :
  exists pvF l c,
    @_publish_metrics plain_text willing_broker default_settings
                      (JObj [("curr", JObj [("TempCWU", JArr [])])])
                      (init_state default_settings)
    = (Ok JNull,
       logged (l ++ [summary_entry pvF]) (called c (init_state default_settings)))
    /\ In (Publish {| topic := "econet/dhw_temp"; payload := "[]";
                      retain := false |} (PubRc 0)) c
    /\ Py.dict_get "dhw_temp" pvF = Some (JStr "[]").
Proof.
  destruct (proj2 (proj2
              (@empty_array_is_published
                 plain_text willing_broker default_settings
                 (JObj [("curr", JObj [("TempCWU", JArr [])])])
                 "dhw_temp" [SKey "curr"; SKey "TempCWU"] []
                 (init_state default_settings) eq_refl)))
    as (pvF & l & c & n & _ & Hpub & Hin & _ & Hacc).
  - simpl. do 11 right. left. reflexivity.
  - exists pvF, l, c. split; [exact Hpub |]. split; [exact Hin |].
    exact (proj1 (Hacc eq_refl)).
Defined.

Lemma null_value_is_skipped_witness :
  @_get_nested_value plain_text (JObj [("curr", JObj [("TempCWU", JNull)])])
                     [SKey "curr"; SKey "TempCWU"]
  = Ok JNull.
Proof.
  refine (proj1 (@null_value_is_skipped
                   plain_text willing_broker default_settings
                   (JObj [("curr", JObj [("TempCWU", JNull)])])
                   "dhw_temp" [SKey "curr"; SKey "TempCWU"]
                   (init_state default_settings) _ eq_refl)).
  simpl. do 11 right. left. reflexivity.
Defined.

(** * Further properties *)

(** ** The resolver on sub-documents and on lists *)

(** Resolving a path in two steps: once the loop has brought the prefix of a
    path to a value, the result is that of resolving the rest of the path in
    that value. *)
Theorem resolve_after_prefix {T : PyText} (data v : json) (pre post : path) :
  walk data pre = Ok (Some v) ->
  _get_nested_value data (pre ++ post)%list = _get_nested_value v post.
Proof.
  intros H. unfold _get_nested_value, get_nested_body.
  rewrite (walk_app pre data v post H). reflexivity.
Qed.

Lemma resolve_after_prefix_witness :
  @_get_nested_value plain_text
    (JObj [("tilesParams", JArr [JArr [JArr [JStr "21.0"; JInt 1]]])])
    ([SKey "tilesParams"; SIdx 0] ++ [SIdx 0])%list
  = @_get_nested_value plain_text (JArr [JArr [JStr "21.0"; JInt 1]]) [SIdx 0].
Proof.
  apply (@resolve_after_prefix plain_text
           (JObj [("tilesParams", JArr [JArr [JArr [JStr "21.0"; JInt 1]]])])
           (JArr [JArr [JStr "21.0"; JInt 1]])
           [SKey "tilesParams"; SIdx 0] [SIdx 0]).
  reflexivity.
Defined.

Lemma list_getitem_negative (l : list json) (i : Z) :
  - Z.of_nat (List.length l) <= i < 0 ->
  Py.list_getitem l i = Py.list_getitem l (i + Z.of_nat (List.length l)).
Proof.
  intros Hi. unfold Py.list_getitem.
  destruct (Z.ltb_spec i 0) as [_ | Hge]; [| lia].
  destruct (Z.ltb_spec (i + Z.of_nat (List.length l)) 0) as [Hlt | _]; [lia |].
  reflexivity.
Qed.

(** On a list, an index in [-len, 0) reads the element [len] places further,
    and a string key that is an integer literal reads as that integer. *)
Theorem list_index_readings {T : PyText} (l : list json) (rest : path) :
  (forall i,
      - Z.of_nat (List.length l) <= i < 0 ->
      _get_nested_value (JArr l) (SIdx i :: rest)
      = _get_nested_value (JArr l) (SIdx (i + Z.of_nat (List.length l)) :: rest))
  /\ (forall s i,
         Py.int_of_str s = Some i ->
         _get_nested_value (JArr l) (SKey s :: rest)
         = _get_nested_value (JArr l) (SIdx i :: rest)).
Proof.
  split.
  - intros i Hi. unfold _get_nested_value, get_nested_body. simpl.
    rewrite (list_getitem_negative l i Hi). reflexivity.
  - intros s i Hs. unfold _get_nested_value, get_nested_body. simpl.
    rewrite Hs. reflexivity.
Qed.

Lemma list_index_readings_witness :
  @_get_nested_value plain_text (JArr [JInt 5; JInt 6; JInt 7]) [SIdx (-1)]
  = @_get_nested_value plain_text (JArr [JInt 5; JInt 6; JInt 7]) [SIdx 2]
  /\ @_get_nested_value plain_text (JArr [JInt 5; JInt 6; JInt 7]) [SKey " 1 "]
     = @_get_nested_value plain_text (JArr [JInt 5; JInt 6; JInt 7]) [SIdx 1].
Proof.
  split.
  - apply (proj1 (@list_index_readings plain_text [JInt 5; JInt 6; JInt 7] [])
                 (-1)).
    simpl. lia.
  - apply (proj2 (@list_index_readings plain_text [JInt 5; JInt 6; JInt 7] [])
                 " 1 " 1).
    reflexivity.
Defined.

(** ** Whole sweeps *)

Lemma non_object_resolves_none {T : PyText} (data : json) (k : string) (rest : path) :
  (forall d, data <> JObj d) ->
  Py.int_of_str k = None ->
  _get_nested_value data (SKey k :: rest) = Ok JNull.
Proof.
  intros Hobj Hk. unfold _get_nested_value, get_nested_body.
  destruct data; simpl; try reflexivity.
  - rewrite Hk. reflexivity.
  - exfalso. apply (Hobj members). reflexivity.
Qed.

Lemma table_paths_start_with_a_name {T : PyText} (name : string) (p : path) :
  In (name, p) topic_mappings ->
  exists k rest, p = SKey k :: rest /\ Py.int_of_str k = None.
Proof.
  intros Hin. simpl in Hin.
  repeat (destruct Hin as [Hin | Hin];
          [inversion Hin; subst; eexists _, _; split; reflexivity |]).
  contradiction.
Qed.

Lemma sent_messages_app (a b : list client_call) :
  sent_messages (a ++ b) = (sent_messages a ++ sent_messages b)%list.
Proof.
  induction a as [| c a IH]; simpl; [reflexivity |].
  destruct c; simpl; rewrite IH; reflexivity.
Qed.

Lemma present_value_none {T : PyText} (data : json) (p : path) :
  _get_nested_value data p = Ok JNull -> present_value data p = None.
Proof. intros H. unfold present_value. rewrite H. reflexivity. Qed.

Lemma present_value_some {T : PyText} (data : json) (p : path) (v : json) :
  _get_nested_value data p = Ok v -> v <> JNull -> present_value data p = Some v.
Proof.
  intros H Hv. unfold present_value. rewrite H, (is_None_false v Hv). reflexivity.
Qed.

Lemma dict_set_fresh (key : string) (v : json) (d : list (string * json)) :
  Py.dict_get key d = None -> Py.dict_set key v d = (d ++ [(key, v)])%list.
Proof.
  induction d as [| [k w] rest IH]; simpl; intros H; [reflexivity |].
  destruct (String.eqb k key); [discriminate |].
  rewrite (IH H). reflexivity.
Qed.

Lemma dict_get_app_fresh (key : string) (d e : list (string * json)) :
  Py.dict_get key d = None -> Py.dict_get key (d ++ e) = Py.dict_get key e.
Proof.
  induction d as [| [k w] rest IH]; simpl; intros H; [reflexivity |].
  destruct (String.eqb k key); [discriminate | apply IH; exact H].
Qed.

Section WholeSweeps.

Context {T : PyText}.
Variable broker : nat -> message -> pub_outcome.
Variable self : settings.

(** A sweep in which every path resolves to [None]: the warnings, in table
    order, and nothing else. *)
Lemma publish_loop_all_absent (data : json) (table : list (string * path)) :
  forall pv st,
    (forall name p, In (name, p) table -> _get_nested_value data p = Ok JNull) ->
    publish_loop broker self data table pv st
    = (Ok pv,
       logged (map (fun entry => (WARNING, CouldNotFind (fst entry) (snd entry)))
                   table) st).
Proof.
  induction table as [| [name p] rest IH]; intros pv st Hall.
  - simpl. unfold ret. rewrite logged_nil. reflexivity.
  - cbn [publish_loop]. unfold bind at 1.
    rewrite (publish_one_absent broker self data pv name p st)
      by (apply (Hall name p); left; reflexivity).
    rewrite IH by (intros n q Hq; apply (Hall n q); right; exact Hq).
    rewrite logged_logged. reflexivity.
Qed.

(** A document that is not an object: no metric is found.  The sweep makes
    no call on the client; it logs one warning per metric, in table order,
    and the closing warning, and returns [None]. *)
Theorem non_object_document_publishes_nothing (data : json) (st : state) :
  (forall d, data <> JObj d) ->
  _publish_metrics broker self data st
  = (Ok JNull,
     logged (map (fun entry => (WARNING, CouldNotFind (fst entry) (snd entry)))
                 topic_mappings
               ++ [(WARNING, NoValuesPublished)]) st).
Proof.
  intros Hobj.
  assert (Hnone : forall name p,
             In (name, p) topic_mappings -> _get_nested_value data p = Ok JNull).
  { intros name p Hin.
    destruct (table_paths_start_with_a_name name p Hin) as (k & rest & -> & Hk).
    apply non_object_resolves_none; assumption. }
  rewrite (publish_metrics_eq broker self data st _ []
             (publish_loop_all_absent data topic_mappings [] st Hnone)).
  rewrite logged_logged. reflexivity.
Qed.

(** Whatever the broker answers, the calls of a loop over [table] are publish
    calls, one for each metric whose value is present, in table order. *)
Lemma publish_loop_sends (data : json) (table : list (string * path)) :
  forall pv st,
  exists pv' l cs,
    publish_loop broker self data table pv st = (Ok pv', logged l (called cs st))
    /\ sent_messages cs = due_messages self data table
    /\ List.length (sent_messages cs) = List.length cs.
Proof.
  induction table as [| [name p] rest IH]; intros pv st.
  - exists pv, [], []. rewrite logged_nil, called_nil. simpl. unfold ret. auto.
  - destruct (get_nested_value_total data p) as [v Hv].
    assert (Hone : exists pv1 l1 c1,
               publish_one broker self data pv (name, p) st
               = (Ok pv1, logged l1 (called c1 st))
               /\ sent_messages c1
                  = match present_value data p with
                    | Some w => [metric_message self name w]
                    | None => []
                    end
               /\ List.length (sent_messages c1) = List.length c1).
    { destruct v;
        try (rewrite (publish_one_present broker self data pv name p _ st Hv)
               by discriminate;
             rewrite (present_value_some data p _ Hv) by discriminate;
             match goal with
             | |- context [broker ?n ?m] => destruct (broker n m) as [rc |]
             end;
             [ destruct (rc =? 0);
               [ eexists _, [], _; rewrite logged_nil | eexists _, _, _ ]
             | eexists _, _, _ ];
             (split; [reflexivity | split; reflexivity])).
      rewrite (publish_one_absent broker self data pv name p st Hv).
      rewrite (present_value_none data p Hv).
      eexists _, _, []. rewrite called_nil. split; [reflexivity |]. auto. }
    destruct Hone as (pv1 & l1 & c1 & H1 & Hs1 & Hn1).
    destruct (IH pv1 (logged l1 (called c1 st)))
      as (pv2 & l2 & c2 & H2 & Hs2 & Hn2).
    exists pv2, (l1 ++ l2)%list, (c1 ++ c2)%list. split; [| split].
    + cbn [publish_loop]. unfold bind at 1. rewrite H1, H2.
      rewrite called_logged, called_called, logged_logged. reflexivity.
    + rewrite sent_messages_app, Hs1, Hs2. reflexivity.
    + rewrite sent_messages_app, !length_app, Hn1, Hn2. reflexivity.
Qed.

(** What a sweep sends depends on the document alone: whatever the broker
    answers, [_publish_metrics] makes publish calls only, one for each metric
    whose value is not [None], in table order, with the metric's topic and
    payload and without the retain flag; it touches neither the flag nor the
    counters. *)
Theorem sweep_sends_due_messages (data : json) (st : state) :
  exists st' cs,
    _publish_metrics broker self data st = (Ok JNull, st')
    /\ client st' = (client st ++ cs)%list
    /\ sent_messages cs = due_messages self data topic_mappings
    /\ List.length (sent_messages cs) = List.length cs
    /\ Forall (fun m => retain m = false) (sent_messages cs)
    /\ running st' = running st
    /\ fetched st' = fetched st
    /\ slept st' = slept st.
Proof.
  destruct (publish_loop_sends data topic_mappings [] st)
    as (pv & l & cs & Hloop & Hsent & Hlen).
  exists (logged [summary_entry pv] (logged l (called cs st))), cs.
  split; [apply publish_metrics_eq; exact Hloop |].
  split; [reflexivity |]. split; [exact Hsent |]. split; [exact Hlen |].
  split; [| repeat split].
  rewrite Hsent. unfold due_messages. apply Forall_flat_map.
  apply Forall_forall. intros entry _.
  destruct (present_value data (snd entry)); repeat constructor.
Qed.

(** With a broker that takes every message, a loop over a table of distinct
    names appends to [published_values] one entry per present metric, in
    table order, and logs the warnings of the absent ones and nothing else. *)
Lemma publish_loop_accepted (data : json) (table : list (string * path)) :
  (forall n m, broker n m = PubRc 0) ->
  NoDup (map fst table) ->
  forall pv st,
    (forall name, In name (map fst table) -> Py.dict_get name pv = None) ->
    publish_loop broker self data table pv st
    = (Ok (pv ++ due_values data table)%list,
       logged (missing_warnings data table)
              (called (map (fun m => Publish m (PubRc 0))
                           (due_messages self data table)) st)).
Proof.
  intros Hacc. induction table as [| [name p] rest IH]; intros Hnd pv st Hfresh.
  - simpl. unfold ret. rewrite app_nil_r, logged_nil, called_nil. reflexivity.
  - inversion Hnd as [| ? ? Hnotin Hnd']; subst.
    cbn [publish_loop]. unfold bind at 1.
    unfold due_values, missing_warnings, due_messages. cbn [flat_map fst snd].
    fold (due_values data rest). fold (missing_warnings data rest).
    fold (due_messages self data rest).
    destruct (get_nested_value_total data p) as [v Hv].
    assert (Hcase : v = JNull \/ v <> JNull)
      by (destruct v; auto; right; discriminate).
    destruct Hcase as [-> | Hnn].
    + rewrite (publish_one_absent broker self data pv name p st Hv).
      rewrite (present_value_none data p Hv).
      rewrite (IH Hnd') by (intros n Hn; apply Hfresh; right; exact Hn).
      simpl. rewrite called_logged, logged_logged. reflexivity.
    + rewrite (publish_one_present broker self data pv name p v st Hv Hnn).
      rewrite (present_value_some data p v Hv Hnn).
      rewrite Hacc. cbn [Z.eqb].
      rewrite dict_set_fresh by (apply Hfresh; left; reflexivity).
      rewrite (IH Hnd').
      * simpl. rewrite called_called, <- app_assoc. reflexivity.
      * intros n Hn. rewrite dict_get_app_fresh
          by (apply Hfresh; right; exact Hn).
        simpl. destruct (String.eqb_spec name n) as [-> | _];
          [contradiction | reflexivity].
Qed.

(** With a broker that takes every message, [published_values] at the end of
    the sweep lists exactly the metrics whose value is present, each with its
    payload, in table order; the log holds the warnings of the absent metrics
    and the closing entry, and no error. *)
Theorem accepted_sweep_records_all (data : json) (st : state) :
  (forall n m, broker n m = PubRc 0) ->
  publish_loop broker self data topic_mappings [] st
  = (Ok (due_values data topic_mappings),
     logged (missing_warnings data topic_mappings)
            (called (map (fun m => Publish m (PubRc 0))
                         (due_messages self data topic_mappings)) st))
  /\ _publish_metrics broker self data st
     = (Ok JNull,
        logged (missing_warnings data topic_mappings
                  ++ [summary_entry (due_values data topic_mappings)])
               (called (map (fun m => Publish m (PubRc 0))
                            (due_messages self data topic_mappings)) st)).
Proof.
  intros Hacc.
  assert (Hloop := publish_loop_accepted data topic_mappings Hacc
                     topic_names_unique [] st (fun _ _ => eq_refl)).
  split; [exact Hloop |].
  rewrite (publish_metrics_eq broker self data st _ _ Hloop).
  rewrite logged_logged. reflexivity.
Qed.

End WholeSweeps.

Lemma non_object_document_publishes_nothing_witness :
  client (snd (@_publish_metrics plain_text willing_broker default_settings
                                 (JArr [JInt 1]) (init_state default_settings)))
  = client (init_state default_settings).
Proof.
  rewrite (@non_object_document_publishes_nothing
             plain_text willing_broker default_settings (JArr [JInt 1])
             (init_state default_settings)).
  - reflexivity.
  - intros d H. discriminate H.
Defined.

Lemma accepted_sweep_records_all_witness :
  fst (@publish_loop plain_text willing_broker default_settings cylinder_document
                     topic_mappings [] (init_state default_settings))
  = Ok [("dhw_temp", JStr "48")].
Proof.
  rewrite (proj1 (@accepted_sweep_records_all
                    plain_text willing_broker default_settings cylinder_document
                    (init_state default_settings) (fun _ _ => eq_refl))).
  reflexivity.
Defined.

(** ** The discovery payload, field by field *)

Lemma dict_get_copy_same (key : string) (config d : list (string * json)) :
  Py.dict_get key (copy_key key config d)
  = match Py.dict_get key config with
    | Some v => Some v
    | None => Py.dict_get key d
    end.
Proof.
  unfold copy_key. destruct (Py.dict_get key config); [| reflexivity].
  apply dict_get_set_same.
Qed.

Lemma component_cases (config : list (string * json)) :
  (component_of config = "sensor"
   /\ Py.dict_get "payload_on" config = None
   /\ is_str (Py.dict_get "device_class" config) "running" = false)
  \/ component_of config = "binary_sensor".
Proof.
  unfold component_of, Py.dict_has.
  destruct (is_str (Py.dict_get "device_class" config) "running"); simpl; auto.
  destruct (Py.dict_get "payload_on" config); auto.
Qed.

Ltac payload_lookup :=
  repeat (rewrite dict_get_copy_other by discriminate);
  repeat (rewrite dict_get_set_other by discriminate);
  try reflexivity.

(** The fields every registration has.  For any metadata with a name, the
    payload names the entity [econet_<metric>]; its state topic is the topic
    the metric's values are published on; its availability topic and the two
    availability payloads are those of the online and offline messages. *)
Theorem discovery_payload_links {T : PyText} (self : settings)
        (topic_name : string) (config : list (string * json)) (name : json) :
  Py.dict_get "name" config = Some name ->
  exists d,
    discovery_payload self topic_name config = Ok d
    /\ Py.dict_get "name" d = Some name
    /\ Py.dict_get "unique_id" d = Some (JStr ("econet_" ++ topic_name))
    /\ (forall v,
           Py.dict_get "state_topic" d
           = Some (JStr (topic (metric_message self topic_name v))))
    /\ Py.dict_get "availability_topic" d
       = Some (JStr (topic (online_message self)))
    /\ Py.dict_get "availability_topic" d
       = Some (JStr (topic (offline_message self)))
    /\ Py.dict_get "payload_available" d
       = Some (JStr (payload (online_message self)))
    /\ Py.dict_get "payload_not_available" d
       = Some (JStr (payload (offline_message self))).
Proof.
  intros Hname. unfold discovery_payload.
  remember (polling_interval self * 4) as expiry eqn:Hexpiry.
  simpl. rewrite Hname. simpl.
  eexists. split; [reflexivity |].
  destruct (is_str (Py.dict_get "device_class" config) "enum");
    destruct (component_cases config) as [(-> & _ & _) | ->]; simpl;
    repeat split; intros; payload_lookup.
Qed.

Lemma discovery_payload_links_witness :
  exists d,
    discovery_payload default_settings "ashp_pump_active"
                      (running_flag "ASHP Pump" "mdi:pump") = Ok d
    /\ Py.dict_get "state_topic" d = Some (JStr "econet/ashp_pump_active")
    /\ Py.dict_get "availability_topic" d = Some (JStr "econet/availability").
Proof.
  destruct (@discovery_payload_links
              plain_text default_settings "ashp_pump_active"
              (running_flag "ASHP Pump" "mdi:pump") (JStr "ASHP Pump") eq_refl)
    as (d & Hd & _ & _ & Hstate & Havail & _).
  exists d. split; [exact Hd |]. split; [exact (Hstate JNull) | exact Havail].
Defined.

(** The optional fields.  The device class, the unit and the state class are
    in the payload exactly as the metadata has them, and so is [payload_on];
    [payload_off] is taken over only for a binary sensor, [options] only for
    the device class ["enum"], and the icon is ["mdi:gauge"] when the
    metadata has none. *)
Theorem discovery_payload_optional_fields (self : settings)
        (topic_name : string) (config : list (string * json)) (name : json) :
  Py.dict_get "name" config = Some name ->
  exists d,
    discovery_payload self topic_name config = Ok d
    /\ Py.dict_get "device_class" d = Py.dict_get "device_class" config
    /\ Py.dict_get "unit_of_measurement" d
       = Py.dict_get "unit_of_measurement" config
    /\ Py.dict_get "state_class" d = Py.dict_get "state_class" config
    /\ Py.dict_get "payload_on" d = Py.dict_get "payload_on" config
    /\ Py.dict_get "payload_off" d
       = (if String.eqb (component_of config) "binary_sensor"
          then Py.dict_get "payload_off" config
          else None)
    /\ Py.dict_get "options" d
       = (if is_str (Py.dict_get "device_class" config) "enum"
          then Py.dict_get "options" config
          else None)
    /\ Py.dict_get "icon" d
       = Some (match Py.dict_get "icon" config with
               | Some v => v
               | None => JStr "mdi:gauge"
               end).
Proof.
  intros Hname. unfold discovery_payload.
  remember (polling_interval self * 4) as expiry eqn:Hexpiry.
  simpl. rewrite Hname. simpl.
  eexists. split; [reflexivity |].
  destruct (is_str (Py.dict_get "device_class" config) "enum");
    destruct (component_cases config) as [(-> & Hon & _) | ->]; simpl;
    repeat split;
    repeat first
      [ rewrite dict_get_copy_other by discriminate
      | rewrite dict_get_copy_same ];
    try rewrite Hon;
    repeat match goal with
           | |- context [match Py.dict_get ?k config with _ => _ end] =>
               destruct (Py.dict_get k config)
           end;
    reflexivity.
Qed.

Lemma discovery_payload_optional_fields_witness :
  exists d,
    discovery_payload default_settings "odd"
                      [("name", JStr "Odd"); ("payload_off", JStr "0");
                       ("options", JArr [JStr "a"])] = Ok d
    /\ Py.dict_get "payload_off" d = None
    /\ Py.dict_get "options" d = None
    /\ Py.dict_get "icon" d = Some (JStr "mdi:gauge").
Proof.
  destruct (discovery_payload_optional_fields
              default_settings "odd"
              [("name", JStr "Odd"); ("payload_off", JStr "0");
               ("options", JArr [JStr "a"])] (JStr "Odd") eq_refl)
    as (d & Hd & _ & _ & _ & _ & Hoff & Hopt & Hicon).
  exists d. split; [exact Hd |]. split; [exact Hoff |]. split; [exact Hopt |].
  exact Hicon.
Defined.

(** ** Registration, start-up and the pace of the loop *)

Lemma table_configs_have_names :
  forallb (fun entry => Py.dict_has "name" (snd entry)) ha_discovery_configs = true.
Proof. vm_compute. reflexivity. Qed.

Section RunProperties.

Context {T : PyText}.
Variable broker : nat -> message -> pub_outcome.
Variable self : settings.

Lemma discover_one_registers (name : string) (config : list (string * json))
      (st : state) :
  Py.dict_has "name" config = true ->
  exists l call,
    discover_one broker self (name, config) st
    = (Ok tt, logged l (called [call] st))
    /\ registers self call (name, config).
Proof.
  intros Hname. unfold Py.dict_has in Hname.
  destruct (Py.dict_get "name" config) as [nm |] eqn:Hnm; [| discriminate].
  destruct (discovery_expire_after self name config nm Hnm) as (d & Hd & _).
  unfold discover_one, bind, lift. rewrite Hd.
  unfold try_except, bind, mqtt_publish.
  match goal with
  | |- context [broker ?n ?m] => destruct (broker n m) as [rc |] eqn:Hout
  end.
  - destruct (rc =? 0); cbn [negb].
    + eexists [], _. rewrite logged_nil. split; [reflexivity |].
      exists d, (PubRc rc). auto.
    + eexists _, _. split; [reflexivity |]. exists d, (PubRc rc). auto.
  - eexists _, _. split; [reflexivity |]. exists d, PubRaise. auto.
Qed.

(** Registration goes through the whole table: one retained message per
    entry, in table order, whatever the broker answers to each. *)
Lemma discover_all_registers (table : list (string * list (string * json))) :
  forallb (fun entry => Py.dict_has "name" (snd entry)) table = true ->
  forall st,
  exists l cs,
    discover_all broker self table st = (Ok tt, logged l (called cs st))
    /\ Forall2 (registers self) cs table.
Proof.
  induction table as [| [name config] rest IH]; intros Hnames st.
  - exists [], []. rewrite logged_nil, called_nil. split; [reflexivity |].
    constructor.
  - simpl in Hnames. apply andb_prop in Hnames. destruct Hnames as [Hn Hrest].
    destruct (discover_one_registers name config st Hn) as (l1 & call & H1 & Hr).
    destruct (IH Hrest (logged l1 (called [call] st))) as (l2 & cs & H2 & Hrs).
    exists (l1 ++ l2)%list, (call :: cs). split.
    + cbn [discover_all]. unfold bind at 1. rewrite H1, H2.
      rewrite called_logged, called_called, logged_logged. reflexivity.
    + constructor; assumption.
Qed.

Lemma publish_ha_discovery_state (st : state) :
  exists l cs,
    _publish_ha_discovery broker self st = (Ok tt, logged l (called cs st))
    /\ (ha_discovery self = false -> l = [] /\ cs = [])
    /\ (ha_discovery self = true -> Forall2 (registers self) cs ha_discovery_configs).
Proof.
  unfold _publish_ha_discovery. destruct (ha_discovery self).
  - destruct (discover_all_registers ha_discovery_configs table_configs_have_names
                (logged [(INFO, PublishingDiscovery)] st)) as (l & cs & H & Hr).
    exists ([(INFO, PublishingDiscovery)] ++ l ++ [(INFO, DiscoveryPublished)])%list,
           cs.
    split; [| split; [discriminate | intros _; exact Hr]].
    cbn [negb]. unfold bind at 1. unfold logger at 1.
    unfold bind at 1. rewrite H. unfold logger.
    rewrite called_logged, !logged_logged. reflexivity.
  - exists [], []. rewrite logged_nil, called_nil.
    split; [reflexivity |]. split; [auto | discriminate].
Qed.

(** [_publish_ha_discovery] never raises on the metric table.  Switched off,
    it leaves the state as it is.  Switched on, it makes one publish call per
    entry of the table, in table order, each retained, on the entry's
    discovery topic and with the dump of its payload; a call that fails does
    not keep the later entries from being registered. *)
Theorem discovery_registers_every_metric (st : state) :
  (ha_discovery self = false ->
   _publish_ha_discovery broker self st = (Ok tt, st))
  /\ (ha_discovery self = true ->
      exists l cs,
        _publish_ha_discovery broker self st = (Ok tt, logged l (called cs st))
        /\ Forall2
             (fun call entry =>
                exists d out,
                  discovery_payload self (fst entry) (snd entry) = Ok d
                  /\ call = Publish {| topic := discovery_topic (fst entry) (snd entry);
                                       payload := json_dumps (JObj d);
                                       retain := true |} out)
             cs ha_discovery_configs
        /\ List.length cs = List.length ha_discovery_configs).
Proof.
  destruct (publish_ha_discovery_state st) as (l & cs & H & Hoff & Hon).
  split.
  - intros Hd. destruct (Hoff Hd) as (-> & ->).
    rewrite logged_nil, called_nil in H. exact H.
  - intros Hd. exists l, cs. split; [exact H |]. split; [exact (Hon Hd) |].
    apply (Forall2_length (Hon Hd)).
Qed.

(** *** How [run] can end *)

Lemma poll_loop_raises (schedule : list cycle) :
  forall st e st',
    poll_loop broker self schedule st = (Raise e, st') -> is_Exception e = true.
Proof.
  induction schedule as [| c rest IH]; intros st e st' H.
  - cbn [poll_loop] in H. unfold bind, get_running, ret in H.
    destruct (running st); discriminate.
  - destruct (running st) eqn:Hon.
    + rewrite (poll_loop_step broker self c rest st Hon) in H.
      destruct (cycle_body broker self c st) as [[u | e1] st1] eqn:Hbody.
      * apply (IH st1 e st' H).
      * inversion H; subst.
        apply (cycle_body_raises broker self c e st st' Hbody).
    + rewrite (poll_loop_flag_down broker self (c :: rest) st Hon) in H.
      discriminate.
Qed.

(** The [try] statement never lets an exception out: the schedule either
    ends with the loop alive, or the loop is left and the shutdown has run. *)
Lemma main_loop_total (schedule : list cycle) (st : state) :
  exists r st',
    main_loop broker self schedule st = (Ok r, st')
    /\ (r = LoopLeft ->
        exists cs out,
          client st' = (cs ++ [Publish (offline_message self) out;
                               LoopStop; Disconnect])%list).
Proof.
  destruct (poll_loop broker self schedule st) as [[[|] | e] st1] eqn:Hloop.
  - exists LoopLeft, (snd (shutdown broker self st1)). split.
    + unfold main_loop. rewrite Hloop.
      unfold try_finally, try_except, lift. rewrite shutdown_eq. reflexivity.
    + intros _. eexists _, _. apply client_after_shutdown.
  - exists StillPolling, st1. split; [| discriminate].
    unfold main_loop. rewrite Hloop. reflexivity.
  - eexists LoopLeft, _. split.
    + apply (main_loop_raise broker self schedule st st1 e Hloop).
      apply (poll_loop_raises schedule st e st1 Hloop).
    + intros _. eexists _, _. apply client_after_shutdown.
Qed.

(** [run] ends in one of three ways.  When [connect] raises, it exits with
    [SystemExit] after two error entries, having made no call on the client:
    no registration, no fetch and no offline message.  Once [connect] has
    gone through - whatever the broker's answer code - it never raises:
    either the loop is still polling when the schedule ends, or the loop has
    been left and the last calls on the client are the offline message,
    [loop_stop] and [disconnect]. *)
Theorem run_outcomes (schedule : list cycle) (st : state) :
  run broker self ConnectRaises schedule st
  = (Raise SystemExit,
     logged [(INFO, Starting); (ERROR, ConnectError); (ERROR, ConnectFailedExiting)]
            st)
  /\ (forall rc,
         exists r st',
           run broker self (Connack rc) schedule st = (Ok r, st')
           /\ (r = LoopLeft ->
               exists cs out,
                 client st' = (cs ++ [Publish (offline_message self) out;
                                      LoopStop; Disconnect])%list)).
Proof.
  split.
  - unfold run, connect_mqtt, bind, logger, ret, raise. cbn [negb].
    rewrite !logged_logged. reflexivity.
  - intros rc.
    assert (Hconn : exists st1,
               connect_mqtt broker self (Connack rc)
                            (logged [(INFO, Starting)] st) = (Ok true, st1)).
    { unfold connect_mqtt, bind, client_call_, _on_mqtt_connect.
      destruct (rc =? 0).
      - unfold bind, logger, try_except, mqtt_publish.
        match goal with
        | |- context [broker ?n ?m] => destruct (broker n m)
        end; eexists; reflexivity.
      - eexists. reflexivity. }
    destruct Hconn as (st1 & Hconn).
    destruct (publish_ha_discovery_state st1) as (l & cs & Hdisc & _).
    destruct (main_loop_total schedule (logged l (called cs st1)))
      as (r & st' & Hmain & Hleft).
    exists r, st'. split; [| exact Hleft].
    unfold run. unfold bind at 1. unfold logger at 1.
    unfold bind at 1. rewrite Hconn. cbn [negb].
    unfold bind at 1. rewrite Hdisc. exact Hmain.
Qed.

(** *** Cycles *)

Lemma publish_metrics_state (data : json) (st : state) :
  exists l cs,
    _publish_metrics broker self data st = (Ok JNull, logged l (called cs st))
    /\ sent_messages cs = due_messages self data topic_mappings.
Proof.
  destruct (publish_loop_sends broker self data topic_mappings [] st)
    as (pv & l & cs & Hloop & Hsent & _).
  exists (l ++ [summary_entry pv])%list, cs. split; [| exact Hsent].
  rewrite (publish_metrics_eq broker self data st _ pv Hloop).
  rewrite logged_logged. reflexivity.
Qed.

(** A cycle whose fetch returns a document, up to its wait. *)
Lemma cycle_body_with_document (c : cycle) (data : json) (st : state) :
  response c = HttpJson data ->
  exists l cs,
    cycle_body broker self c st
    = wait_loop c 0 (Z.to_nat (polling_interval self))
                (logged l (called cs (one_more_fetch (at_fetch c st))))
    /\ sent_messages cs
       = if truthy data then due_messages self data topic_mappings else [].
Proof.
  intros Hresp. rewrite cycle_body_eq, Hresp, fetch_eq.
  destruct (truthy data).
  - destruct (publish_metrics_state data (one_more_fetch (at_fetch c st)))
      as (l & cs & Hpub & Hsent).
    exists l, cs. split; [| exact Hsent].
    unfold bind at 1. rewrite Hpub. reflexivity.
  - exists [(ERROR, NoData)], []. rewrite called_nil. split; reflexivity.
Qed.

Lemma at_fetch_projections (c : cycle) (st : state) :
  fetched (at_fetch c st) = fetched st
  /\ slept (at_fetch c st) = slept st
  /\ client (at_fetch c st) = client st
  /\ running (at_fetch c st)
     = match signal c with
       | Some 0%nat => false
       | _ => running st
       end.
Proof.
  unfold at_fetch. rewrite deliver_signal_eq. cbn [snd].
  destruct (signal c) as [[| n] |]; simpl; auto.
Qed.

(** Cycles that meet no signal and whose fetch returns a document keep the
    pace: each makes one fetch and [polling_interval] sleeps of a second (none
    when the interval is zero or negative), and the loop is still polling
    after them. *)
Theorem quiet_cycles_keep_the_pace (schedule : list cycle) :
  forall st,
    running st = true ->
    Forall (fun c => signal c = None /\ exists data, response c = HttpJson data)
           schedule ->
    exists st',
      poll_loop broker self schedule st = (Ok StillPolling, st')
      /\ running st' = true
      /\ fetched st' = (fetched st + List.length schedule)%nat
      /\ slept st'
         = (slept st + List.length schedule * Z.to_nat (polling_interval self))%nat.
Proof.
  induction schedule as [| c rest IH]; intros st Hon Hquiet.
  - exists st. cbn [poll_loop]. unfold bind, get_running, ret. rewrite Hon.
    simpl. repeat split; auto; lia.
  - inversion Hquiet as [| ? ? (Hsig & data & Hresp) Hrest]; subst.
    destruct (cycle_body_with_document c data st Hresp) as (l & cs & Hbody & _).
    destruct (at_fetch_projections c st) as (Hf & Hs & _ & Hr).
    rewrite Hsig in Hr.
    destruct (wait_loop_quiet c (Z.to_nat (polling_interval self)) 0%nat
                (logged l (called cs (one_more_fetch (at_fetch c st)))))
      as (st1 & Hwait & Hs1 & Hr1 & _ & _ & Hf1).
    + simpl. congruence.
    + intros j Hj. congruence.
    + destruct (IH st1 Hr1 Hrest) as (st' & Hloop & Hr' & Hf' & Hs').
      exists st'. split; [| split; [exact Hr' | split]].
      * rewrite (poll_loop_step broker self c rest st Hon), Hbody, Hwait.
        exact Hloop.
      * rewrite Hf', Hf1. simpl. rewrite Hf. lia.
      * rewrite Hs', Hs1. simpl. rewrite Hs. lia.
Qed.

(** A signal that arrives while the fetch is in flight does not cut the
    cycle short: the document is still swept and its messages published.
    The wait then makes no sleep, the loop is left without running a later
    cycle, and the shutdown follows. *)
Theorem signal_during_fetch_finishes_cycle (c : cycle) (rest : list cycle)
        (data : json) (st : state) :
  running st = true ->
  signal c = Some 0%nat ->
  response c = HttpJson data ->
  exists st' cs,
    cycle_body broker self c st = (Ok tt, st')
    /\ client st' = (client st ++ cs)%list
    /\ sent_messages cs
       = (if truthy data then due_messages self data topic_mappings else [])
    /\ running st' = false
    /\ fetched st' = S (fetched st)
    /\ slept st' = slept st
    /\ poll_loop broker self (c :: rest) st = (Ok LoopLeft, st')
    /\ main_loop broker self (c :: rest) st
       = (Ok LoopLeft, snd (shutdown broker self st')).
Proof.
  intros Hon Hsig Hresp.
  destruct (cycle_body_with_document c data st Hresp) as (l & cs & Hbody & Hsent).
  destruct (at_fetch_projections c st) as (Hf & Hs & Hc & Hr).
  rewrite Hsig in Hr.
  rewrite wait_loop_flag_down in Hbody by (simpl; exact Hr).
  exists (logged l (called cs (one_more_fetch (at_fetch c st)))), cs.
  assert (Hloop : poll_loop broker self (c :: rest) st
                  = (Ok LoopLeft,
                     logged l (called cs (one_more_fetch (at_fetch c st))))).
  { rewrite (poll_loop_step broker self c rest st Hon), Hbody.
    apply poll_loop_flag_down. simpl. exact Hr. }
  split; [exact Hbody |]. split; [simpl; rewrite Hc; reflexivity |].
  split; [exact Hsent |]. split; [simpl; exact Hr |].
  split; [simpl; rewrite Hf; reflexivity |].
  split; [simpl; exact Hs |]. split; [exact Hloop |].
  unfold main_loop. rewrite Hloop.
  unfold try_finally, try_except, lift. rewrite shutdown_eq. reflexivity.
Qed.

(** A request that fails - a [RequestException] or a [JSONDecodeError] - is
    not logged by [_fetch_econet_data]: the handler's [logger.error] call
    raises [TypeError].  The cycle stops there, with no sweep and no wait; the
    loop is left with that error logged as unexpected, and the shutdown
    follows.  [_fetch_econet_data] returns [None] only when the endpoint's
    document is [null]. *)
Theorem failed_request_ends_the_loop (c : cycle) (rest : list cycle) (st : state) :
  running st = true ->
  response c = HttpRequestException \/ response c = HttpJSONDecodeError ->
  cycle_body broker self c st = (Raise TypeError, one_more_fetch (at_fetch c st))
  /\ log (one_more_fetch (at_fetch c st)) = (log st ++ [(INFO, Polling)]
       ++ match signal c with
          | Some 0%nat => [(INFO, ReceivedSignal)]
          | _ => []
          end)%list
  /\ main_loop broker self (c :: rest) st
     = (Ok LoopLeft,
        snd (shutdown broker self
               (logged [(ERROR, UnexpectedError TypeError)]
                       (one_more_fetch (at_fetch c st)))))
  /\ (forall h s, fst (_fetch_econet_data h s) = Ok JNull -> h = HttpJson JNull).
Proof.
  intros Hon Hresp.
  assert (Hbody : cycle_body broker self c st
                  = (Raise TypeError, one_more_fetch (at_fetch c st))).
  { rewrite cycle_body_eq, fetch_eq. destruct Hresp as [-> | ->]; reflexivity. }
  split; [exact Hbody |]. split; [| split].
  - unfold at_fetch. rewrite deliver_signal_eq. cbn [snd].
    destruct (signal c) as [[| n] |]; simpl; rewrite <- ?app_assoc;
      rewrite ?app_nil_r; reflexivity.
  - apply main_loop_raise; [| reflexivity].
    rewrite (poll_loop_step broker self c rest st Hon), Hbody. reflexivity.
  - intros h s H. rewrite fetch_eq in H.
    destruct h; simpl in H; try discriminate. congruence.
Qed.

End RunProperties.

Lemma discovery_registers_every_metric_witness :
  exists l cs,
    @_publish_ha_discovery plain_text willing_broker default_settings
                           (init_state default_settings)
    = (Ok tt, logged l (called cs (init_state default_settings)))
    /\ List.length cs = 14%nat.
Proof.
  destruct (proj2 (@discovery_registers_every_metric
                     plain_text willing_broker default_settings
                     (init_state default_settings)) eq_refl)
    as (l & cs & H & _ & Hlen).
  exists l, cs. split; [exact H | exact Hlen].
Defined.

Lemma run_outcomes_witness :
  exists cs out,
    client (snd (@run plain_text willing_broker default_settings (Connack 0)
                      [failing_cycle] (init_state default_settings)))
    = (cs ++ [Publish (offline_message default_settings) out;
              LoopStop; Disconnect])%list.
Proof.
  destruct (proj2 (@run_outcomes plain_text willing_broker default_settings
                                 [failing_cycle] (init_state default_settings)) 0)
    as (r & st' & Hrun & Hleft).
  rewrite Hrun. cbn [snd]. apply Hleft.
  assert (Hr : fst (@run plain_text willing_broker default_settings (Connack 0)
                         [failing_cycle] (init_state default_settings))
               = Ok LoopLeft) by (vm_compute; reflexivity).
  rewrite Hrun in Hr. simpl in Hr. inversion Hr. reflexivity.
Defined.

Lemma quiet_cycles_keep_the_pace_witness :
  exists st',
    @poll_loop plain_text willing_broker default_settings
               [cylinder_cycle; cylinder_cycle; cylinder_cycle]
               (init_state default_settings)
    = (Ok StillPolling, st')
    /\ fetched st' = 3%nat
    /\ slept st' = 30%nat.
Proof.
  destruct (@quiet_cycles_keep_the_pace
              plain_text willing_broker default_settings
              [cylinder_cycle; cylinder_cycle; cylinder_cycle]
              (init_state default_settings) eq_refl)
    as (st' & Hloop & _ & Hf & Hs).
  - repeat constructor; exists cylinder_document; reflexivity.
  - exists st'. split; [exact Hloop |]. split; [exact Hf | exact Hs].
Defined.

Lemma signal_during_fetch_finishes_cycle_witness :
  exists st' cs,
    @cycle_body plain_text willing_broker default_settings
                {| response := HttpJson cylinder_document; signal := Some 0%nat |}
                (init_state default_settings)
    = (Ok tt, st')
    /\ client st' = (client (init_state default_settings) ++ cs)%list
    /\ List.length (sent_messages cs) = 1%nat
    /\ slept st' = 0%nat.
Proof.
  destruct (@signal_during_fetch_finishes_cycle
              plain_text willing_broker default_settings
              {| response := HttpJson cylinder_document; signal := Some 0%nat |}
              [] cylinder_document (init_state default_settings)
              eq_refl eq_refl eq_refl)
    as (st' & cs & Hbody & Hcl & Hsent & _ & _ & Hs & _).
  exists st', cs. split; [exact Hbody |]. split; [exact Hcl |].
  split; [rewrite Hsent; reflexivity | exact Hs].
Defined.

Lemma failed_request_ends_the_loop_witness :
  fst (@main_loop plain_text willing_broker default_settings
                  [{| response := HttpRequestException; signal := None |};
                   cylinder_cycle]
                  (init_state default_settings))
  = Ok LoopLeft.
Proof.
  rewrite (proj1 (proj2 (proj2
             (@failed_request_ends_the_loop
                plain_text willing_broker default_settings
                {| response := HttpRequestException; signal := None |}
                [cylinder_cycle] (init_state default_settings)
                eq_refl (or_introl eq_refl))))).
  reflexivity.
Defined.

(** ** [__init__] *)

Lemma endswith_slash_cons (c : ascii) (s : string) :
  s <> EmptyString -> Init.endswith_slash (String c s) = Init.endswith_slash s.
Proof. destruct s; [congruence | reflexivity]. Qed.

Lemma endswith_slash_appended (s : string) :
  Init.endswith_slash (s ++ "/") = true.
Proof.
  induction s as [| c s IH]; [reflexivity |].
  change (String c s ++ "/") with (String c (s ++ "/")).
  rewrite endswith_slash_cons; [exact IH |].
  destruct s; discriminate.
Qed.



(** The topic prefix after [__init__] always ends in a slash: a given prefix
    that ends in one is kept as it is, any other - the empty one too - gets
    one appended.  The availability topic is that prefix followed by
    ["availability"]. *)
Theorem init_prefix_ends_with_slash {T : PyText} (env : Init.environ)
        (a : Init.attributes)
        (events : list Init.init_event) :
  Init.__init__ env = (Ok a, events) ->
  Init.endswith_slash (mqtt_topic_prefix (Init.core a)) = true
  /\ (Init.endswith_slash (Init.getenv_or env "MQTT_TOPIC_PREFIX" "econet/") = true ->
      mqtt_topic_prefix (Init.core a)
      = Init.getenv_or env "MQTT_TOPIC_PREFIX" "econet/")
  /\ (Init.endswith_slash (Init.getenv_or env "MQTT_TOPIC_PREFIX" "econet/") = false ->
      mqtt_topic_prefix (Init.core a)
      = Init.getenv_or env "MQTT_TOPIC_PREFIX" "econet/" ++ "/")
  /\ availability_topic (Init.core a)
     = mqtt_topic_prefix (Init.core a) ++ "availability".
Proof.
  unfold Init.__init__. intros H.
  destruct (Py.int_of_str (Init.getenv_or env "MQTT_PORT" "1883")); [| discriminate].
  destruct (Py.int_of_str (Init.getenv_or env "POLLING_INTERVAL" "10"));
    [| discriminate].
  destruct (Init.getenv env "ECONET_ENDPOINT") as [endpoint |]; [| discriminate].
  destruct (String.eqb endpoint ""); [discriminate |].
  inversion H; subst; clear H. cbn [Init.core mqtt_topic_prefix].
  destruct (Init.endswith_slash (Init.getenv_or env "MQTT_TOPIC_PREFIX" "econet/"))
    eqn:Hends.
  - repeat split; auto. discriminate.
  - repeat split; auto; [apply endswith_slash_appended | discriminate].
Qed.

Lemma init_prefix_ends_with_slash_witness :
  exists a events,
    @Init.__init__ plain_text [("MQTT_TOPIC_PREFIX", ""); ("ECONET_ENDPOINT", "10.0.0.5")]
    = (Ok a, events)
    /\ mqtt_topic_prefix (Init.core a) = "/"
    /\ availability_topic (Init.core a) = "/availability".
Proof.
  eexists _, _. split; [reflexivity |].
  destruct (@init_prefix_ends_with_slash plain_text
              [("MQTT_TOPIC_PREFIX", ""); ("ECONET_ENDPOINT", "10.0.0.5")]
              _ _ eq_refl) as (_ & _ & Happ & Havail).
  split; [exact (Happ eq_refl) | exact Havail].
Defined.

(** With only the endpoint set, [__init__] leaves the default settings. *)
Example init_defaults :
  exists a events,
    @Init.__init__ plain_text [("ECONET_ENDPOINT", "10.0.0.5")] = (Ok a, events)
    /\ Init.core a = default_settings
    /\ Init.mqtt_host a = "localhost"
    /\ Init.mqtt_port a = 1883.
Proof. eexists _, _. repeat split. Qed.
